(** * Line annotation geometry of chartjs-plugin-annotation

    A shallow embedding of [src/types/line.js]: the clipper
    ([isLineInArea], [limitPointToArea], [limitLineToArea]), the hit test
    ([intersects]), the resolver ([resolveElementProperties]) and the label
    placer ([calculateLabelPosition] and its helpers).

    Numbers.  The program computes on IEEE-754 binary64 numbers.  They are
    modelled twice.

    - [num]: an exact rational, one of the two infinities, or NaN.
      Arithmetic follows IEEE-754 on the special values (division by zero,
      NaN propagation, comparisons with NaN are false); a finite result is
      not rounded, overflow is not modelled, and the two zeros are
      identified (a zero divisor counts as +0).  What is stated over [num]
      does not rest on a finite result being exact: the statements are
      about comparisons, about values that the code copies (an edge of the
      viewport, an end point, a cached width), about a result given as the
      expression that the code evaluates, or about bounds that rounding to
      the nearest number preserves.
    - [Binary64]: the binary64 numbers themselves, as the primitive
      floating-point numbers of the kernel.  The clipper, the hit test and
      the label placer are embedded there as well, to evaluate them with
      the rounding of the program and to prove what holds for every
      binary64 input.

    The only place where an angle is needed as a real number,
    [calculateAutoRotation], is embedded once more over [R] in module
    [RealAngle]. *)

From Stdlib Require Import QArith Qabs Qminmax Bool String List Psatz.
From Stdlib Require Import Reals.
From Corelib Require PrimFloat FloatOps FloatAxioms SpecFloat.
From stdpp Require Import gmap strings.

Local Open Scope Q_scope.

(** ** JavaScript numbers *)

Inductive num : Type :=
| Fin (q : Q)
| PInf
| NInf
| NaN.

Declare Scope js_scope.
Delimit Scope js_scope with js.
Bind Scope js_scope with num.

Module Num.

Definition Qltb (a b : Q) : bool :=
  match a ?= b with Lt => true | _ => false end.

(** The infinity (or NaN) that a product or quotient with an infinite
    operand takes, from the sign of the finite one. *)
Definition inf_of_sign (c : comparison) : num :=
  match c with Gt => PInf | Lt => NInf | Eq => NaN end.

Definition neg (a : num) : num :=
  match a with
  | Fin q => Fin (- q)
  | PInf => NInf
  | NInf => PInf
  | NaN => NaN
  end.

Definition add (a b : num) : num :=
  match a, b with
  | NaN, _ | _, NaN => NaN
  | Fin p, Fin q => Fin (p + q)
  | PInf, NInf | NInf, PInf => NaN
  | PInf, _ | _, PInf => PInf
  | NInf, _ | _, NInf => NInf
  end.

Definition sub (a b : num) : num := add a (neg b).

Definition mul (a b : num) : num :=
  match a, b with
  | NaN, _ | _, NaN => NaN
  | Fin p, Fin q => Fin (p * q)
  | Fin p, PInf | PInf, Fin p => inf_of_sign (p ?= 0)
  | Fin p, NInf | NInf, Fin p => inf_of_sign (0 ?= p)
  | PInf, PInf | NInf, NInf => PInf
  | PInf, NInf | NInf, PInf => NInf
  end.

Definition div (a b : num) : num :=
  match a, b with
  | NaN, _ | _, NaN => NaN
  | Fin p, Fin q =>
      if Qeq_bool q 0 then inf_of_sign (p ?= 0) else Fin (p / q)
  | Fin _, (PInf | NInf) => Fin 0
  | PInf, Fin q => if Qltb q 0 then NInf else PInf
  | NInf, Fin q => if Qltb q 0 then PInf else NInf
  | (PInf | NInf), (PInf | NInf) => NaN
  end.

(** [Math.abs] *)
Definition abs (a : num) : num :=
  match a with
  | Fin q => Fin (Qabs q)
  | PInf | NInf => PInf
  | NaN => NaN
  end.

(** [a < b]; every comparison with NaN is false. *)
Definition lt (a b : num) : bool :=
  match a, b with
  | NaN, _ | _, NaN => false
  | Fin p, Fin q => Qltb p q
  | NInf, (Fin _ | PInf) | Fin _, PInf => true
  | _, _ => false
  end.

(** [a <= b] *)
Definition le (a b : num) : bool :=
  match a, b with
  | NaN, _ | _, NaN => false
  | Fin p, Fin q => Qle_bool p q
  | NInf, _ | _, PInf => true
  | _, _ => false
  end.

Definition gt (a b : num) : bool := lt b a.
Definition ge (a b : num) : bool := le b a.

(** [a === b] on numbers *)
Definition seq (a b : num) : bool :=
  match a, b with
  | Fin p, Fin q => Qeq_bool p q
  | PInf, PInf | NInf, NInf => true
  | _, _ => false
  end.

(** [Math.min] and [Math.max] of two numbers. *)
Definition min (a b : num) : num :=
  match a, b with
  | NaN, _ | _, NaN => NaN
  | _, _ => if lt b a then b else a
  end.

Definition max (a b : num) : num :=
  match a, b with
  | NaN, _ | _, NaN => NaN
  | _, _ => if lt a b then b else a
  end.

Definition is_finite (a : num) : bool :=
  match a with Fin _ => true | _ => false end.

(** Equality of numbers up to the representation of a rational. *)
Definition eqv (a b : num) : Prop :=
  match a, b with
  | Fin p, Fin q => p == q
  | PInf, PInf | NInf, NInf | NaN, NaN => True
  | _, _ => False
  end.

End Num.

Infix "+" := Num.add : js_scope.
Infix "-" := Num.sub : js_scope.
Infix "*" := Num.mul : js_scope.
Infix "/" := Num.div : js_scope.
Infix "<?" := Num.lt (at level 70, no associativity) : js_scope.
Infix "<=?" := Num.le (at level 70, no associativity) : js_scope.
Infix ">?" := Num.gt (at level 70, no associativity) : js_scope.
Infix ">=?" := Num.ge (at level 70, no associativity) : js_scope.
Infix "===" := Num.seq (at level 70, no associativity) : js_scope.
Infix "~=" := Num.eqv (at level 70, no associativity) : js_scope.

(** ** Data model *)

(** [{x, y}] *)
Module Point.
Record t : Type := mk { x : num; y : num }.
End Point.

(** [chartArea]: [{top, right, bottom, left}] *)
Record Area : Type := mkArea { top : num; right : num; bottom : num; left : num }.

(** The four coordinates [{x, y, x2, y2}] of a line. *)
Record Coords : Type := mkCoords { x : num; y : num; x2 : num; y2 : num }.

(** What [limitLineToArea] and [resolveElementProperties] return:
    [{x, y, x2, y2, width, height}]. *)
Module Props.
Record t : Type := mk { coords : Coords; width : num; height : num }.
End Props.

(** [{w, h}]: the size of the line and the rotated size of the label. *)
Module Size.
Record t : Type := mk { w : num; h : num }.
End Size.

(** What [spaceAround] returns: [{x, y, dx, dy}]. *)
Module Space.
Record t : Type := mk { x : num; y : num; dx : num; dy : num }.
End Space.

(** The argument [{size, min, max, padding}] of [adjustLabelCoordinate]. *)
Module LabelSizes.
Record t : Type := mk { size : num; min : num; max : num; padding : num }.
End LabelSizes.

(** [labelRect]: [{x, y, width, height, rotation}]. *)
Module LabelRect.
Record t : Type :=
  mk { x : num; y : num; width : num; height : num; rotation : num }.
End LabelRect.

(** [label.rotation] is the string ['auto'] or a number of degrees. *)
Inductive Rotation : Type :=
| RotationAuto
| RotationDegrees (d : num).

(** The fields of [options.label] that the placer reads. *)
Record Label : Type := mkLabel {
  xAdjust : num;
  yAdjust : num;
  xPadding : num;
  yPadding : num;
  position : string;
  rotation : Rotation
}.

(** The value of an option such as [value] or [xMin]. *)
Inductive Value : Type :=
| Undefined
| Number (n : num)
| Text (s : string).

(** A scale of the host chart: the horizontal-axis predicate and the
    mapping from a data value to a pixel. *)
Record Scale : Type := mkScale {
  isHorizontal : bool;
  getPixelForValue : num -> num
}.

Record Options : Type := mkOptions {
  borderWidth : num;
  label : Label;
  value : Value;
  endValue : Value;
  scaleID : option string;
  xScaleID : option string;
  xMin : Value;
  xMax : Value;
  yScaleID : option string;
  yMin : Value;
  yMax : Value
}.

(** [chart.scales] and [chart.chartArea]. *)
Record Chart : Type := mkChart {
  scales : gmap string Scale;
  chartArea : Area
}.

(** The element: its resolved coordinates and its options. *)
Record LineAnnotation : Type := mkLine {
  coords : Coords;
  options : Options
}.

Local Open Scope js_scope.

(** An integer literal. *)
Definition int (z : Z) : num := Fin (z # 1).

(** ** Clipper *)

Definition pointInLine (p1 p2 : Point.t) (t : num) : Point.t :=
  {| Point.x := Point.x p1 + t * (Point.x p2 - Point.x p1);
     Point.y := Point.y p1 + t * (Point.y p2 - Point.y p1) |}.

Definition interpolateX (y : num) (p1 p2 : Point.t) : num :=
  Point.x (pointInLine p1 p2 (Num.abs ((y - Point.y p1) / (Point.y p2 - Point.y p1)))).

Definition interpolateY (x : num) (p1 p2 : Point.t) : num :=
  Point.y (pointInLine p1 p2 (Num.abs ((x - Point.x p1) / (Point.x p2 - Point.x p1)))).

Definition isLineInArea (l : Coords) (a : Area) : bool :=
  negb (((x l <? left a) && (x2 l <? left a))
        || ((x l >? right a) && (x2 l >? right a))
        || ((y l <? top a) && (y2 l <? top a))
        || ((y l >? bottom a) && (y2 l >? bottom a))).

(** The four [if] statements of [limitPointToArea], each one a step on the
    point being clipped. *)
Definition limitLeft (p p2 : Point.t) (a : Area) : Point.t :=
  if Point.x p <? left a
  then {| Point.x := left a; Point.y := interpolateY (left a) p p2 |}
  else p.

Definition limitRight (p p2 : Point.t) (a : Area) : Point.t :=
  if Point.x p >? right a
  then {| Point.x := right a; Point.y := interpolateY (right a) p p2 |}
  else p.

Definition limitTop (p p2 : Point.t) (a : Area) : Point.t :=
  if Point.y p <? top a
  then {| Point.x := interpolateX (top a) p p2; Point.y := top a |}
  else p.

Definition limitBottom (p p2 : Point.t) (a : Area) : Point.t :=
  if Point.y p >? bottom a
  then {| Point.x := interpolateX (bottom a) p p2; Point.y := bottom a |}
  else p.

Definition limitPointToArea (p p2 : Point.t) (a : Area) : Point.t :=
  limitBottom (limitTop (limitRight (limitLeft p p2 a) p2 a) p2 a) p2 a.

Definition limitLineToArea (p1 p2 : Point.t) (a : Area) : Props.t :=
  let q1 := limitPointToArea p1 p2 a in
  let q2 := limitPointToArea p2 p1 a in
  {| Props.coords :=
       {| x := Point.x q1; y := Point.y q1; x2 := Point.x q2; y2 := Point.y q2 |};
     Props.width := Num.abs (Point.x q2 - Point.x q1);
     Props.height := Num.abs (Point.y q2 - Point.y q1) |}.

(** A point lies within or on the boundary of the viewport:
    [left <= x <= right] and [top <= y <= bottom]. *)
Definition inArea (p : Point.t) (a : Area) : bool :=
  (left a <=? Point.x p) && (Point.x p <=? right a)
  && (top a <=? Point.y p) && (Point.y p <=? bottom a).

(** The height of a point lies within the viewport: [top <= y <= bottom]. *)
Definition inBand (p : Point.t) (a : Area) : bool :=
  (top a <=? Point.y p) && (Point.y p <=? bottom a).

(** The abscissa of a point lies within the viewport:
    [left <= x <= right]. *)
Definition inSides (p : Point.t) (a : Area) : bool :=
  (left a <=? Point.x p) && (Point.x p <=? right a).

(** The first two [if] statements of [limitPointToArea]: the clips at the
    left and right edges, before those at the top and bottom edges. *)
Definition limitSides (p p2 : Point.t) (a : Area) : Point.t :=
  limitRight (limitLeft p p2 a) p2 a.

(** What the clips at the top and bottom edges make of the point [q] that
    the clips at the left and right edges return: [q] itself when its
    height is within the viewport, and otherwise the point of the top edge
    or of the bottom edge at the interpolated abscissa. *)
Definition clippedFrom (r q p2 : Point.t) (a : Area) : Prop :=
  (inBand q a = true /\ r = q)
  \/ ((Point.y q <? top a) = true
      /\ r = Point.mk (interpolateX (top a) q p2) (top a))
  \/ ((Point.y q >? bottom a) = true
      /\ r = Point.mk (interpolateX (bottom a) q p2) (bottom a)).

(** The two end points of a line. *)
Definition startPoint (l : Coords) : Point.t := Point.mk (x l) (y l).
Definition endPoint (l : Coords) : Point.t := Point.mk (x2 l) (y2 l).

(** Observational equality of points and coordinates. *)
Definition Point_eqv (p p' : Point.t) : Prop :=
  Point.x p ~= Point.x p' /\ Point.y p ~= Point.y p'.

Definition Coords_eqv (l l' : Coords) : Prop :=
  x l ~= x l' /\ y l ~= y l' /\ x2 l ~= x2 l' /\ y2 l ~= y2 l'.

(** ** Methods of the element *)

Definition sqr (v : num) : num := v * v.

(** The constant [t] of [intersects]: the parameter of the projection of
    [(x, y)] on the line, or [-1] when the two end points coincide. *)
Definition projection (this : LineAnnotation) (x y : num) : num :=
  let '(mkCoords x1 y1 x2 y2) := coords this in
  let dx := x2 - x1 in
  let dy := y2 - y1 in
  let lenSq := sqr dx + sqr dy in
  if lenSq === int 0
  then int (-1)
  else ((x - x1) * dx + (y - y1) * dy) / lenSq.

Definition intersects (this : LineAnnotation) (x y epsilon : num) : bool :=
  let '(mkCoords x1 y1 x2 y2) := coords this in
  let dx := x2 - x1 in
  let dy := y2 - y1 in
  let t := projection this x y in
  let nearest :=
    if t <? int 0 then Point.mk x1 y1
    else if t >? int 1 then Point.mk x2 y2
    else Point.mk (x1 + t * dx) (y1 + t * dy) in
  sqr (x - Point.x nearest) + sqr (y - Point.y nearest) <? epsilon.

(** The default value of the parameter [epsilon]. *)
Definition defaultEpsilon : num := Fin (1 # 1000).

Definition getCenterPoint (this : LineAnnotation) : Point.t :=
  {| Point.x := (x2 (coords this) + x (coords this)) / int 2;
     Point.y := (y2 (coords this) + y (coords this)) / int 2 |}.

(** ** Resolver *)

Section Resolver.

(** The helper [scaleValue (scale, value, fallback)] of [../helpers] is
    not part of the sources at hand: it is a parameter. *)
Variable scaleValue : Scale -> Value -> num -> num.

(** [chart.scales[id]], where [id] may be [undefined]. *)
Definition scaleOf (chart : Chart) (id : option string) : option Scale :=
  match id with
  | Some k => scales chart !! k
  | None => None
  end.

(** The coordinates [{x, y, x2, y2}] before clipping. *)
Definition rawCoords (chart : Chart) (options : Options) : Coords :=
  let area := chartArea chart in
  match scaleOf chart (scaleID options) with
  | Some scale =>
      let min := scaleValue scale (value options) NaN in
      let max := scaleValue scale (endValue options) min in
      if isHorizontal scale
      then {| x := min; y := top area; x2 := max; y2 := bottom area |}
      else {| x := left area; y := min; x2 := right area; y2 := max |}
  | None =>
      let xs :=
        match scaleOf chart (xScaleID options) with
        | Some xScale =>
            (scaleValue xScale (xMin options) (left area),
             scaleValue xScale (xMax options) (right area))
        | None => (left area, right area)
        end in
      let ys :=
        match scaleOf chart (yScaleID options) with
        | Some yScale =>
            (scaleValue yScale (yMin options) (top area),
             scaleValue yScale (yMax options) (bottom area))
        | None => (top area, bottom area)
        end in
      {| x := fst xs; y := fst ys; x2 := snd xs; y2 := snd ys |}
  end.

Definition resolveElementProperties (chart : Chart) (options : Options)
  : Props.t :=
  let c := rawCoords chart options in
  let inside := isLineInArea c (chartArea chart) in
  if inside
  then limitLineToArea (Point.mk (x c) (y c)) (Point.mk (x2 c) (y2 c))
                       (chartArea chart)
  else {| Props.coords := c;
          Props.width := Num.abs (x2 c - x c);
          Props.height := Num.abs (y2 c - y c) |}.

End Resolver.

(** ** Label placer *)

(** The result of [c && v] for a boolean [c] and a number [v]: [false] or
    the number. *)
Inductive FalseOrNum : Type :=
| JsFalse
| JsNum (n : num).

Definition andNum (c : bool) (v : num) : FalseOrNum :=
  if c then JsNum v else JsFalse.

(** The conversion that [Math.max] applies to its arguments. *)
Definition toNumber (v : FalseOrNum) : num :=
  match v with
  | JsFalse => int 0
  | JsNum n => n
  end.

(** Modelled from the spec: the helper [clamp] of [../helpers] is not part
    of the sources at hand; by the spec the adjustment is capped to the
    interval given by the last two arguments. *)
Definition clamp (x from to : num) : num :=
  Num.min to (Num.max from x).

Definition spaceAround (line : Coords) (chartArea : Area) : Space.t :=
  let t := Num.min (y line) (y2 line) - top chartArea in
  let l := Num.min (x line) (x2 line) - left chartArea in
  let b := bottom chartArea - Num.max (y line) (y2 line) in
  let r := right chartArea - Num.max (x line) (x2 line) in
  {| Space.x := Num.min l r;
     Space.y := Num.min t b;
     Space.dx := if l <? r then int 1 else int (-1);
     Space.dy := if t <? b then int 1 else int (-1) |}.

Definition calculateTAdjust (lineSize labelSize : Size.t) (label : Label)
    (space : Space.t) : num :=
  let lineW := Size.w lineSize * Space.dx space in
  let lineH := Size.h lineSize * Space.dy space in
  let x := andNum (lineW >? int 0)
             ((Size.w labelSize / int 2 + xPadding label - Space.x space) / lineW) in
  let y := andNum (lineH >? int 0)
             ((Size.h labelSize / int 2 + yPadding label - Space.y space) / lineH) in
  clamp (Num.max (toNumber x) (toNumber y)) (int 0) (Fin (1 # 4)).

Definition calculateT (line : LineAnnotation) (position : string)
    (rotSize : Size.t) (chartArea : Area) : num :=
  let l := coords line in
  let space := spaceAround l chartArea in
  let label := label (options line) in
  if String.eqb position "start"
  then calculateTAdjust {| Size.w := x2 l - x l; Size.h := y2 l - y l |}
                        rotSize label space
  else if String.eqb position "end"
  then int 1 - calculateTAdjust {| Size.w := x l - x2 l; Size.h := y l - y2 l |}
                                rotSize label space
  else Fin (1 # 2).

Definition adjustLabelCoordinate (coordinate : num) (labelSizes : LabelSizes.t)
  : num :=
  let size := LabelSizes.size labelSizes in
  let min := LabelSizes.min labelSizes in
  let max := LabelSizes.max labelSizes in
  let padding := LabelSizes.padding labelSizes in
  let halfSize := size / int 2 in
  if size >? max - min
  then (max + min) / int 2
  else
    let coordinate :=
      if min >=? coordinate - padding - halfSize
      then min + padding + halfSize
      else coordinate in
    let coordinate :=
      if max <=? coordinate + padding + halfSize
      then max - padding - halfSize
      else coordinate in
    coordinate.

Section Placer.

(** Functions and constants of the host: [Math.PI], [Math.cos],
    [Math.sin], [Math.atan2] and the helper [toRadians] of the chart
    library. *)
Variable PI : num.
Variables Math_cos Math_sin : num -> num.
Variable Math_atan2 : num -> num -> num.
Variable toRadians : num -> num.

Definition calculateAutoRotation (line : Coords) : num :=
  let rotation := Math_atan2 (y2 line - y line) (x2 line - x line) in
  if rotation >? PI / int 2 then rotation - PI
  else if rotation <? PI / int (-2) then rotation + PI
  else rotation.

Definition rotatedSize (width height rotation : num) : Size.t :=
  let cos := Math_cos rotation in
  let sin := Math_sin rotation in
  {| Size.w := Num.abs (width * cos) + Num.abs (height * sin);
     Size.h := Num.abs (width * sin) + Num.abs (height * cos) |}.

Definition calculateLabelPosition (line : LineAnnotation)
    (width height : num) (chartArea : Area) : LabelRect.t :=
  let label := label (options line) in
  let p1 := Point.mk (x (coords line)) (y (coords line)) in
  let p2 := Point.mk (x2 (coords line)) (y2 (coords line)) in
  let rotation :=
    match rotation label with
    | RotationAuto => calculateAutoRotation (coords line)
    | RotationDegrees d => toRadians d
    end in
  let size := rotatedSize width height rotation in
  let t := calculateT line (position label) size chartArea in
  let pt := pointInLine p1 p2 t in
  let xCoordinateSizes :=
    {| LabelSizes.size := Size.w size; LabelSizes.min := left chartArea;
       LabelSizes.max := right chartArea;
       LabelSizes.padding := xPadding label |} in
  let yCoordinateSizes :=
    {| LabelSizes.size := Size.h size; LabelSizes.min := top chartArea;
       LabelSizes.max := bottom chartArea;
       LabelSizes.padding := yPadding label |} in
  {| LabelRect.x := adjustLabelCoordinate (Point.x pt) xCoordinateSizes + xAdjust label;
     LabelRect.y := adjustLabelCoordinate (Point.y pt) yCoordinateSizes + yAdjust label;
     LabelRect.width := width;
     LabelRect.height := height;
     LabelRect.rotation := rotation |}.

End Placer.

(** ** The automatic rotation over the reals

    [Math.atan2] returns an angle, a real number that no rational
    represents; the rotation of the label is therefore embedded here over
    [R], with [atan2] defined from the arctangent by the quadrant of
    [(x, y)]. *)
Module RealAngle.

Local Open Scope R_scope.

Record Line : Type := mkLine { x : R; y : R; x2 : R; y2 : R }.

(** [Math.atan2 (y, x)] on real numbers. *)
Definition atan2 (y x : R) : R :=
  if Rlt_dec 0 x then atan (y / x)
  else if Rlt_dec x 0
  then (if Rle_dec 0 y then atan (y / x) + PI else atan (y / x) - PI)
  else if Rlt_dec 0 y then PI / 2
  else if Rlt_dec y 0 then - (PI / 2)
  else 0.

Definition calculateAutoRotation (line : Line) : R :=
  let rotation := atan2 (y2 line - y line) (x2 line - x line) in
  if Rgt_dec rotation (PI / 2) then rotation - PI
  else if Rlt_dec rotation (PI / -2) then rotation + PI
  else rotation.

End RealAngle.

Local Open Scope js_scope.

(** ** Notions used by the statements *)

Local Open Scope Q_scope.

(** The point [(pa, pb)] lies on the segment from [(a1, b1)] to [(a2, b2)],
    at a parameter [tau] between [0] and [s]. *)
Definition onPath (a1 b1 a2 b2 s tau pa pb : Q) : Prop :=
  0 <= tau /\ tau <= s /\
  pa == a1 + tau * (a2 - a1) /\ pb == b1 + tau * (b2 - b1).

Local Close Scope Q_scope.

(** All coordinates of a record are finite numbers. *)
Definition finiteCoords (l : Coords) : bool :=
  Num.is_finite (x l) && Num.is_finite (y l)
  && Num.is_finite (x2 l) && Num.is_finite (y2 l).

Definition finiteArea (a : Area) : bool :=
  Num.is_finite (top a) && Num.is_finite (right a)
  && Num.is_finite (bottom a) && Num.is_finite (left a).

Definition finiteSize (sz : Size.t) : bool :=
  Num.is_finite (Size.w sz) && Num.is_finite (Size.h sz).

Definition finitePadding (l : Label) : bool :=
  Num.is_finite (xPadding l) && Num.is_finite (yPadding l).

(** An instance of the parameter [scaleValue], to run the resolver on
    examples: the pixel of a finite number, the fallback otherwise. *)
Definition pixelOrFallback (scale : Scale) (v : Value) (fallback : num) : num :=
  match v with
  | Number n => if Num.is_finite n then getPixelForValue scale n else fallback
  | _ => fallback
  end.

(** A linear scale whose pixels are the data values. *)
Definition identityScale (horizontal : bool) : Scale :=
  {| isHorizontal := horizontal; getPixelForValue := fun v => v |}.

(** The default options of the label and of the annotation, as far as
    they are modelled. *)
Definition defaultLabel : Label :=
  {| xAdjust := int 0; yAdjust := int 0; xPadding := int 6; yPadding := int 6;
     position := "center"; rotation := RotationDegrees (int 0) |}.

Definition defaultOptions : Options :=
  {| borderWidth := int 2; label := defaultLabel;
     value := Undefined; endValue := Undefined; scaleID := None;
     xScaleID := Some "x"%string; xMin := Undefined; xMax := Undefined;
     yScaleID := Some "y"%string; yMin := Undefined; yMax := Undefined |}.

(** A chart with the viewport [0, 100] x [0, 100] and two scales whose
    pixels are the data values. *)
Definition sampleChart : Chart :=
  {| scales := {[ "x"%string := identityScale true;
                  "y"%string := identityScale false ]};
     chartArea := mkArea (int 0) (int 100) (int 100) (int 0) |}.

(** A line from (200, 10) to (300, 20), right of that viewport. *)
Definition offscreenOptions : Options :=
  {| borderWidth := int 2; label := defaultLabel;
     value := Undefined; endValue := Undefined; scaleID := None;
     xScaleID := Some "x"%string;
     xMin := Number (int 200); xMax := Number (int 300);
     yScaleID := Some "y"%string;
     yMin := Number (int 10); yMax := Number (int 20) |}.

(** ** Further functions of the line annotation *)

(** [label.content]: [null], a string, an array of strings or an image
    with its natural size. *)
Inductive Content : Type :=
| ContentNull
| ContentString (s : string)
| ContentArray (lines : list string)
| ContentImage (naturalWidth naturalHeight : num).

(** The fields of [options.label] that visibility, measuring and text
    alignment read: [enabled], [content], [font.size], [width], [height]
    and [textAlign]. *)
Module LabelText.
Record t : Type := mk {
  enabled : bool;
  content : Content;
  fontSize : num;
  width : Value;
  height : Value;
  textAlign : string
}.
End LabelText.

(** The element with the state of its label: the rectangle of the last
    draw, if any. *)
Module Element.
Record t : Type := mk {
  line : LineAnnotation;
  text : LabelText.t;
  labelRect : option LabelRect.t
}.
End Element.

(** The truth value of a content: [null] and the empty string are falsy. *)
Definition contentTruthy (c : Content) : bool :=
  match c with
  | ContentNull => false
  | ContentString s => negb (String.eqb s "")
  | ContentArray _ | ContentImage _ _ => true
  end.

(** The truth value of a number: zero and NaN are falsy. *)
Definition numTruthy (a : num) : bool :=
  match a with
  | Fin v => negb (Qeq_bool v 0)
  | PInf | NInf => true
  | NaN => false
  end.

(** [a || b] on numbers. *)
Definition orNum (a b : num) : num := if numTruthy a then a else b.

Definition labelIsVisible (this : Element.t) (chartArea : option Area) : bool :=
  let inside :=
    match chartArea with
    | None => true
    | Some area => isLineInArea (coords (Element.line this)) area
    end in
  inside && LabelText.enabled (Element.text this)
  && contentTruthy (LabelText.content (Element.text this)).

Section HitTest.

(** The helper [rotated (point, center, angle)] of [../helpers] is not
    part of the sources at hand: it is a parameter. *)
Variable rotated : Point.t -> Point.t -> num -> Point.t.

Definition isOnLabel (this : Element.t) (mouseX mouseY : num) : bool :=
  match Element.labelRect this with
  | None => false
  | Some labelRect =>
      if negb (labelIsVisible this None) then false
      else
        let p := rotated (Point.mk mouseX mouseY)
                         (Point.mk (LabelRect.x labelRect) (LabelRect.y labelRect))
                         (Num.neg (LabelRect.rotation labelRect)) in
        let w2 := LabelRect.width labelRect / int 2 in
        let h2 := LabelRect.height labelRect / int 2 in
        (Point.x p >=? LabelRect.x labelRect - w2)
        && (Point.x p <=? LabelRect.x labelRect + w2)
        && (Point.y p >=? LabelRect.y labelRect - h2)
        && (Point.y p <=? LabelRect.y labelRect + h2)
  end.

Definition inRange (this : Element.t) (x y : num) : bool :=
  let epsilon := orNum (borderWidth (options (Element.line this))) (int 1) in
  intersects (Element.line this) x y epsilon || isOnLabel this x y.

End HitTest.

Definition calculateLabelXAlignment (label : Label) (text : LabelText.t)
    (width : num) : num :=
  if String.eqb (LabelText.textAlign text) "start"
  then Num.neg (width / int 2) + xPadding label
  else if String.eqb (LabelText.textAlign text) "end"
  then width / int 2 - xPadding label
  else int 0.

(** [s.endsWith (suffix)] *)
Definition endsWith (s suffix : string) : bool :=
  let n := String.length s in
  let m := String.length suffix in
  (m <=? n)%nat && String.eqb (substring (n - m) m s) suffix.

Section Measure.

(** Functions of the host: [parseFloat] and the width that
    [ctx.measureText] reports for a text.  That width depends on the font
    that [ctx] has during the call ([drawLabel] sets it from the label
    before it measures): [measureText] stands for the context of one
    call, while [widthCache], which the module keeps from call to call and
    keys by the text alone, is passed in and returned. *)
Variable parseFloat : string -> num.
Variable measureText : string -> num.

Definition toPercent (s : Value) : FalseOrNum :=
  match s with
  | Text str =>
      if endsWith str "%" then JsNum (parseFloat str / int 100) else JsFalse
  | _ => JsFalse
  end.

Definition getImageSize (size : num) (value : Value) : num :=
  match value with
  | Number n => n
  | Text _ => toNumber (toPercent value) * size
  | Undefined => size
  end.

(** One round of the loop of [measureLabel] on the line [text]: the width
    so far and [widthCache]. *)
Definition measureLine (state : num * gmap string num) (text : string)
  : num * gmap string num :=
  let '(width, widthCache) := state in
  let widthCache :=
    match widthCache !! text with
    | Some _ => widthCache
    | None => <[text := measureText text]> widthCache
    end in
  (Num.max width (default NaN (widthCache !! text)), widthCache).

(** The lines that [measureLabel] measures; [null] is measured as the
    text it converts to. *)
Definition contentLines (c : Content) : list string :=
  match c with
  | ContentArray lines => lines
  | ContentString s => [s]
  | ContentNull => ["null"%string]
  | ContentImage _ _ => []
  end.

(** [measureLabel] with the module-level [widthCache] passed in and
    returned. *)
Definition measureLabel (widthCache : gmap string num) (label : Label)
    (text : LabelText.t) : Size.t * gmap string num :=
  match LabelText.content text with
  | ContentImage naturalWidth naturalHeight =>
      ({| Size.w := getImageSize naturalWidth (LabelText.width text)
                    + int 2 * xPadding label;
          Size.h := getImageSize naturalHeight (LabelText.height text)
                    + int 2 * yPadding label |},
       widthCache)
  | content =>
      let lines := contentLines content in
      let count := int (Z.of_nat (List.length lines)) in
      let '(width, widthCache) :=
        fold_left measureLine lines (int 0, widthCache) in
      ({| Size.w := width + int 2 * xPadding label;
          Size.h := count * LabelText.fontSize text
                    + (count + int 1) * yPadding label |},
       widthCache)
  end.

End Measure.

(** ** The ellipse example *)

Module Ellipse.

(** [point[prop]]: a missing property reads as [undefined], which
    [Math.min] and [Math.max] convert to NaN. *)
Definition pointProp (point : Point.t) (prop : string) : num :=
  if String.eqb prop "x" then Point.x point
  else if String.eqb prop "y" then Point.y point
  else NaN.

(** [min (ctx, datasetIndex, prop)], on the data sets of the chart of
    [ctx]; a missing data set raises a TypeError, [None] here. *)
Definition min (datasets : list (list Point.t)) (datasetIndex : nat)
    (prop : string) : option num :=
  dataset ← datasets !! datasetIndex;
  Some (fold_left (fun v point => Num.min (pointProp point prop) v) dataset PInf).

Definition max (datasets : list (list Point.t)) (datasetIndex : nat)
    (prop : string) : option num :=
  dataset ← datasets !! datasetIndex;
  Some (fold_left (fun v point => Num.max (pointProp point prop) v) dataset NInf).

(** The scriptable bounds [{xMin, yMin, xMax, yMax}] of [annotation1]
    ([datasetIndex] 0) and [annotation2] ([datasetIndex] 1). *)
Record Bounds : Type := mkBounds { xMin : num; yMin : num; xMax : num; yMax : num }.

Definition annotation (datasets : list (list Point.t)) (datasetIndex : nat)
  : option Bounds :=
  x0 ← min datasets datasetIndex "x";
  y0 ← min datasets datasetIndex "y";
  x1 ← max datasets datasetIndex "x";
  y1 ← max datasets datasetIndex "y";
  Some {| xMin := x0 - int 10; yMin := y0 - int 10;
          xMax := x1 + int 10; yMax := y1 + int 10 |}.

End Ellipse.

(** ** The geometry on binary64 numbers

    The numbers of the program are IEEE-754 binary64 numbers, and every
    operation rounds its result to the nearest of them.  The clipper, the
    hit test and the label placer are embedded here a second time, on the
    primitive binary64 numbers, operation by operation as in the source:
    this is the arithmetic of the program, rounding, overflow and signed
    zeros included. *)
Module Binary64.

Import PrimFloat.
Local Open Scope float_scope.

Local Notation "a >? b" := (b <? a) (at level 70, no associativity) : float_scope.
Local Notation "a >=? b" := (b <=? a) (at level 70, no associativity) : float_scope.

(** [Math.abs], [Math.min] and [Math.max].  [Math.min] and [Math.max]
    return NaN when one argument is NaN, and they order [-0] below [+0]:
    the sum of two zeros is [-0] only when both are. *)
Definition Math_abs (a : float) : float := abs a.

Definition Math_min (a b : float) : float :=
  if is_nan a || is_nan b then nan
  else if b <? a then b
  else if a <? b then a
  else if is_zero a then - (- a + - b)
  else a.

Definition Math_max (a b : float) : float :=
  if is_nan a || is_nan b then nan
  else if a <? b then b
  else if b <? a then a
  else if is_zero a then a + b
  else a.

Module Point.
Record t : Type := mk { x : float; y : float }.
End Point.

Record Area : Type := mkArea { top : float; right : float; bottom : float; left : float }.

Record Coords : Type := mkCoords { x : float; y : float; x2 : float; y2 : float }.

Module Props.
Record t : Type := mk { coords : Coords; width : float; height : float }.
End Props.

Module Size.
Record t : Type := mk { w : float; h : float }.
End Size.

Module Space.
Record t : Type := mk { x : float; y : float; dx : float; dy : float }.
End Space.

Module LabelSizes.
Record t : Type := mk { size : float; min : float; max : float; padding : float }.
End LabelSizes.

Module LabelRect.
Record t : Type :=
  mk { x : float; y : float; width : float; height : float; rotation : float }.
End LabelRect.

Inductive Rotation : Type :=
| RotationAuto
| RotationDegrees (d : float).

Record Label : Type := mkLabel {
  xAdjust : float;
  yAdjust : float;
  xPadding : float;
  yPadding : float;
  position : string;
  rotation : Rotation
}.

(** The options of the element that the placer reads, and the element:
    its resolved coordinates and its options. *)
Record Options : Type := mkOptions { label : Label }.

Record LineAnnotation : Type := mkLine {
  coords : Coords;
  options : Options
}.

(** The functions, in the order of the source. *)

Definition pointInLine (p1 p2 : Point.t) (t : float) : Point.t :=
  {| Point.x := Point.x p1 + t * (Point.x p2 - Point.x p1);
     Point.y := Point.y p1 + t * (Point.y p2 - Point.y p1) |}.

Definition interpolateX (y : float) (p1 p2 : Point.t) : float :=
  Point.x (pointInLine p1 p2 (Math_abs ((y - Point.y p1) / (Point.y p2 - Point.y p1)))).

Definition interpolateY (x : float) (p1 p2 : Point.t) : float :=
  Point.y (pointInLine p1 p2 (Math_abs ((x - Point.x p1) / (Point.x p2 - Point.x p1)))).

Definition isLineInArea (l : Coords) (a : Area) : bool :=
  negb (((x l <? left a) && (x2 l <? left a))
        || ((x l >? right a) && (x2 l >? right a))
        || ((y l <? top a) && (y2 l <? top a))
        || ((y l >? bottom a) && (y2 l >? bottom a))).

Definition limitLeft (p p2 : Point.t) (a : Area) : Point.t :=
  if Point.x p <? left a
  then {| Point.x := left a; Point.y := interpolateY (left a) p p2 |}
  else p.

Definition limitRight (p p2 : Point.t) (a : Area) : Point.t :=
  if Point.x p >? right a
  then {| Point.x := right a; Point.y := interpolateY (right a) p p2 |}
  else p.

Definition limitTop (p p2 : Point.t) (a : Area) : Point.t :=
  if Point.y p <? top a
  then {| Point.x := interpolateX (top a) p p2; Point.y := top a |}
  else p.

Definition limitBottom (p p2 : Point.t) (a : Area) : Point.t :=
  if Point.y p >? bottom a
  then {| Point.x := interpolateX (bottom a) p p2; Point.y := bottom a |}
  else p.

Definition limitPointToArea (p p2 : Point.t) (a : Area) : Point.t :=
  limitBottom (limitTop (limitRight (limitLeft p p2 a) p2 a) p2 a) p2 a.

Definition limitLineToArea (p1 p2 : Point.t) (a : Area) : Props.t :=
  let q1 := limitPointToArea p1 p2 a in
  let q2 := limitPointToArea p2 p1 a in
  {| Props.coords :=
       {| x := Point.x q1; y := Point.y q1; x2 := Point.x q2; y2 := Point.y q2 |};
     Props.width := Math_abs (Point.x q2 - Point.x q1);
     Props.height := Math_abs (Point.y q2 - Point.y q1) |}.

Definition sqr (v : float) : float := v * v.

Definition intersects (this : LineAnnotation) (x y epsilon : float) : bool :=
  let '(mkCoords x1 y1 x2 y2) := coords this in
  let dx := x2 - x1 in
  let dy := y2 - y1 in
  let lenSq := sqr dx + sqr dy in
  let t := if lenSq =? 0 then -1 else ((x - x1) * dx + (y - y1) * dy) / lenSq in
  let nearest :=
    if t <? 0 then Point.mk x1 y1
    else if t >? 1 then Point.mk x2 y2
    else Point.mk (x1 + t * dx) (y1 + t * dy) in
  sqr (x - Point.x nearest) + sqr (y - Point.y nearest) <? epsilon.

(** Modelled from the spec, as over [num]: the helper [clamp] of
    [../helpers] is not part of the sources at hand. *)
Definition clamp (x from to : float) : float :=
  Math_min to (Math_max from x).

Definition spaceAround (line : Coords) (chartArea : Area) : Space.t :=
  let t := Math_min (y line) (y2 line) - top chartArea in
  let l := Math_min (x line) (x2 line) - left chartArea in
  let b := bottom chartArea - Math_max (y line) (y2 line) in
  let r := right chartArea - Math_max (x line) (x2 line) in
  {| Space.x := Math_min l r;
     Space.y := Math_min t b;
     Space.dx := if l <? r then 1 else -1;
     Space.dy := if t <? b then 1 else -1 |}.

(** [c && v] under [Math.max]: [false] converts to 0. *)
Definition andNum (c : bool) (v : float) : float := if c then v else 0.

Definition calculateTAdjust (lineSize labelSize : Size.t) (label : Label)
    (space : Space.t) : float :=
  let lineW := Size.w lineSize * Space.dx space in
  let lineH := Size.h lineSize * Space.dy space in
  let x := andNum (lineW >? 0)
             ((Size.w labelSize / 2 + xPadding label - Space.x space) / lineW) in
  let y := andNum (lineH >? 0)
             ((Size.h labelSize / 2 + yPadding label - Space.y space) / lineH) in
  clamp (Math_max x y) 0 0.25.

Definition calculateT (line : LineAnnotation) (position : string)
    (rotSize : Size.t) (chartArea : Area) : float :=
  let l := coords line in
  let space := spaceAround l chartArea in
  let label := label (options line) in
  if String.eqb position "start"
  then calculateTAdjust {| Size.w := x2 l - x l; Size.h := y2 l - y l |}
                        rotSize label space
  else if String.eqb position "end"
  then 1 - calculateTAdjust {| Size.w := x l - x2 l; Size.h := y l - y2 l |}
                            rotSize label space
  else 0.5.

Definition adjustLabelCoordinate (coordinate : float) (labelSizes : LabelSizes.t)
  : float :=
  let size := LabelSizes.size labelSizes in
  let min := LabelSizes.min labelSizes in
  let max := LabelSizes.max labelSizes in
  let padding := LabelSizes.padding labelSizes in
  let halfSize := size / 2 in
  if size >? max - min
  then (max + min) / 2
  else
    let coordinate :=
      if min >=? coordinate - padding - halfSize
      then min + padding + halfSize
      else coordinate in
    let coordinate :=
      if max <=? coordinate + padding + halfSize
      then max - padding - halfSize
      else coordinate in
    coordinate.

Section Placer.

(** Functions and constants of the host, as over [num]. *)
Variable PI : float.
Variables Math_cos Math_sin : float -> float.
Variable Math_atan2 : float -> float -> float.
Variable toRadians : float -> float.

Definition calculateAutoRotation (line : Coords) : float :=
  let rotation := Math_atan2 (y2 line - y line) (x2 line - x line) in
  if rotation >? PI / 2 then rotation - PI
  else if rotation <? PI / -2 then rotation + PI
  else rotation.

Definition rotatedSize (width height rotation : float) : Size.t :=
  let cos := Math_cos rotation in
  let sin := Math_sin rotation in
  {| Size.w := Math_abs (width * cos) + Math_abs (height * sin);
     Size.h := Math_abs (width * sin) + Math_abs (height * cos) |}.

Definition calculateLabelPosition (line : LineAnnotation)
    (width height : float) (chartArea : Area) : LabelRect.t :=
  let label := label (options line) in
  let p1 := Point.mk (x (coords line)) (y (coords line)) in
  let p2 := Point.mk (x2 (coords line)) (y2 (coords line)) in
  let rotation :=
    match rotation label with
    | RotationAuto => calculateAutoRotation (coords line)
    | RotationDegrees d => toRadians d
    end in
  let size := rotatedSize width height rotation in
  let t := calculateT line (position label) size chartArea in
  let pt := pointInLine p1 p2 t in
  let xCoordinateSizes :=
    {| LabelSizes.size := Size.w size; LabelSizes.min := left chartArea;
       LabelSizes.max := right chartArea;
       LabelSizes.padding := xPadding label |} in
  let yCoordinateSizes :=
    {| LabelSizes.size := Size.h size; LabelSizes.min := top chartArea;
       LabelSizes.max := bottom chartArea;
       LabelSizes.padding := yPadding label |} in
  {| LabelRect.x := adjustLabelCoordinate (Point.x pt) xCoordinateSizes + xAdjust label;
     LabelRect.y := adjustLabelCoordinate (Point.y pt) yCoordinateSizes + yAdjust label;
     LabelRect.width := width;
     LabelRect.height := height;
     LabelRect.rotation := rotation |}.

End Placer.

End Binary64.

(** * Properties *)

Local Open Scope Q_scope.

(** ** Comparisons of rationals *)

Lemma Qltb_lt (a b : Q) : Num.Qltb a b = true <-> a < b.
Proof.
  unfold Num.Qltb. rewrite Qlt_alt.
  destruct (a ?= b); split; congruence.
Qed.

Lemma Qltb_ge (a b : Q) : Num.Qltb a b = false <-> b <= a.
Proof.
  rewrite <- not_true_iff_false, Qltb_lt. split.
  - apply Qnot_lt_le.
  - apply Qle_not_lt.
Qed.

Lemma Qle_bool_gt (a b : Q) : Qle_bool a b = false <-> b < a.
Proof.
  rewrite <- not_true_iff_false, Qle_bool_iff. split.
  - apply Qnot_le_lt.
  - apply Qlt_not_le.
Qed.

Lemma Qeq_bool_ne (a b : Q) : Qeq_bool a b = false <-> ~ a == b.
Proof.
  rewrite <- not_true_iff_false, Qeq_bool_iff. reflexivity.
Qed.

(** Case analysis on the next comparison of rationals in the goal. *)
Ltac qtest :=
  match goal with
  | |- context [Num.Qltb ?a ?b] =>
      let H := fresh "Hc" in
      destruct (Num.Qltb a b) eqn:H;
      [apply Qltb_lt in H | apply Qltb_ge in H]
  | |- context [Qle_bool ?a ?b] =>
      let H := fresh "Hc" in
      destruct (Qle_bool a b) eqn:H;
      [apply Qle_bool_iff in H | apply Qle_bool_gt in H]
  | |- context [Qeq_bool ?a ?b] =>
      let H := fresh "Hc" in
      destruct (Qeq_bool a b) eqn:H;
      [apply Qeq_bool_iff in H | apply Qeq_bool_ne in H]
  end.

Lemma div_fin (p d : Q) :
  ~ d == 0 -> Num.div (Fin p) (Fin d) = Fin (p / d).
Proof.
  intros Hd. simpl. apply Qeq_bool_ne in Hd. rewrite Hd. reflexivity.
Qed.

Lemma le_not_gt (a b : num) : Num.le a b = true -> Num.lt b a = false.
Proof.
  destruct a, b; simpl; try congruence.
  rewrite Qle_bool_iff, Qltb_ge. trivial.
Qed.

(** ** The clipper *)

Lemma quotient_spec (n d : Q) : ~ d == 0 -> (n / d) * d == n.
Proof. intros Hd. field. exact Hd. Qed.

Lemma step_core (c1 c2 o1 o2 s tau e pc po : Q) :
  0 <= tau -> tau <= s -> s <= 1 ->
  pc == c1 + tau * (c2 - c1) ->
  po == o1 + tau * (o2 - o1) ->
  (pc < e /\ e <= c1 + s * (c2 - c1)) \/ (c1 + s * (c2 - c1) <= e /\ e < pc) ->
  ~ c2 - pc == 0 /\
  exists tau',
    tau <= tau' /\ tau' <= s /\
    e == c1 + tau' * (c2 - c1) /\
    po + Qabs ((e - pc) / (c2 - pc)) * (o2 - po) == o1 + tau' * (o2 - o1).
Proof.
  intros H0 Hts Hs1 Hpc Hpo Hside.
  assert (Hprod : 0 < (s - tau) * (c2 - c1) /\ 0 < e - pc \/ (s - tau) * (c2 - c1) < 0 /\ e - pc < 0).
  { destruct Hside as [[? ?]|[? ?]]; [left|right]; split; lra. }
  assert (Hlt : tau < s).
  { destruct (Qlt_le_dec tau s) as [?|Hge]; [assumption|].
    assert (Hz : s - tau == 0) by lra.
    assert (Hz' : (s - tau) * (c2 - c1) == 0) by (rewrite Hz; ring).
    lra. }
  assert (Hc2 : c2 - pc == (1 - tau) * (c2 - c1)) by lra.
  assert (Hd : ~ c2 - pc == 0).
  { rewrite Hc2. intros Hz. apply Qmult_integral in Hz. destruct Hz as [Hz|Hz].
    - lra.
    - assert (Hz' : (s - tau) * (c2 - c1) == 0) by (rewrite Hz; ring). lra. }
  split; [exact Hd|].
  pose proof (quotient_spec (e - pc) _ Hd) as Ht.
  remember ((e - pc) / (c2 - pc)) as t eqn:Et. clear Et.
  rewrite Hc2 in Ht.
  assert (Htpos : 0 <= t).
  { destruct Hprod as [[? ?]|[? ?]]; nra. }
  exists (tau + t * (1 - tau)).
  rewrite (Qabs_pos _ Htpos).
  split; [nra|]. split.
  - destruct Hside as [[? ?]|[? ?]]; nra.
  - split.
    + lra.
    + assert (Ho : o2 - po == (1 - tau) * (o2 - o1)) by lra.
      rewrite Ho. lra.
Qed.

Lemma between (o d tau tau' s lo hi : Q) :
  tau <= tau' -> tau' <= s ->
  lo <= o + tau * d <= hi -> lo <= o + s * d <= hi ->
  lo <= o + tau' * d <= hi.
Proof.
  intros H1 H2 [H3 H4] [H5 H6].
  destruct (Qlt_le_dec d 0); split; nra.
Qed.

Section ClipPath.

Variables a1 b1 a2 b2 s L R T B : Q.
Hypothesis Hs1 : s <= 1.
Hypothesis HqL : L <= a1 + s * (a2 - a1).
Hypothesis HqR : a1 + s * (a2 - a1) <= R.
Hypothesis HqT : T <= b1 + s * (b2 - b1).
Hypothesis HqB : b1 + s * (b2 - b1) <= B.

Let area := mkArea (Fin T) (Fin R) (Fin B) (Fin L).
Let p2 := Point.mk (Fin a2) (Fin b2).
Let path := onPath a1 b1 a2 b2 s.

Lemma limitLeft_path (tau pa pb : Q) :
  path tau pa pb ->
  exists tau' pa' pb',
    limitLeft (Point.mk (Fin pa) (Fin pb)) p2 area = Point.mk (Fin pa') (Fin pb')
    /\ path tau' pa' pb' /\ L <= pa'.
Proof.
  intros (H0 & Hts & Hpa & Hpb).
  unfold limitLeft; simpl. qtest.
  - destruct (step_core a1 a2 b1 b2 s tau L pa pb) as (Hd & tau' & Hl & Hu & He & Ho);
      try assumption.
    { left. split; assumption. }
    exists tau', L, (pb + Qabs ((L - pa) / (a2 - pa)) * (b2 - pb)).
    split; [|split].
    + unfold interpolateY, pointInLine; simpl. qtest; [contradiction|reflexivity].
    + repeat split; try assumption. lra.
    + lra.
  - exists tau, pa, pb. repeat split; assumption.
Qed.

Lemma limitRight_path (tau pa pb : Q) :
  path tau pa pb -> L <= pa ->
  exists tau' pa' pb',
    limitRight (Point.mk (Fin pa) (Fin pb)) p2 area = Point.mk (Fin pa') (Fin pb')
    /\ path tau' pa' pb' /\ L <= pa' <= R.
Proof.
  intros (H0 & Hts & Hpa & Hpb) HL.
  unfold limitRight, Num.gt; simpl. qtest.
  - destruct (step_core a1 a2 b1 b2 s tau R pa pb) as (Hd & tau' & Hl & Hu & He & Ho);
      try assumption.
    { right. split; assumption. }
    exists tau', R, (pb + Qabs ((R - pa) / (a2 - pa)) * (b2 - pb)).
    split; [|split].
    + unfold interpolateY, pointInLine; simpl. qtest; [contradiction|reflexivity].
    + repeat split; try assumption. lra.
    + lra.
  - exists tau, pa, pb. repeat split; assumption.
Qed.

Lemma limitTop_path (tau pa pb : Q) :
  path tau pa pb -> L <= pa <= R ->
  exists tau' pa' pb',
    limitTop (Point.mk (Fin pa) (Fin pb)) p2 area = Point.mk (Fin pa') (Fin pb')
    /\ path tau' pa' pb' /\ L <= pa' <= R /\ T <= pb'.
Proof.
  intros (H0 & Hts & Hpa & Hpb) HLR.
  unfold limitTop; simpl. qtest.
  - destruct (step_core b1 b2 a1 a2 s tau T pb pa) as (Hd & tau' & Hl & Hu & He & Ho);
      try assumption.
    { left. split; assumption. }
    exists tau', (pa + Qabs ((T - pb) / (b2 - pb)) * (a2 - pa)), T.
    split; [|split; [|split]].
    + unfold interpolateX, pointInLine; simpl. qtest; [contradiction|reflexivity].
    + repeat split; try assumption. lra.
    + rewrite Ho. apply (between a1 (a2 - a1) tau tau' s); try assumption.
      * rewrite <- Hpa. exact HLR.
      * split; assumption.
    + lra.
  - exists tau, pa, pb. repeat split; try assumption; apply HLR.
Qed.

Lemma limitBottom_path (tau pa pb : Q) :
  path tau pa pb -> L <= pa <= R -> T <= pb ->
  exists tau' pa' pb',
    limitBottom (Point.mk (Fin pa) (Fin pb)) p2 area = Point.mk (Fin pa') (Fin pb')
    /\ path tau' pa' pb' /\ L <= pa' <= R /\ T <= pb' <= B.
Proof.
  intros (H0 & Hts & Hpa & Hpb) HLR HT.
  unfold limitBottom, Num.gt; simpl. qtest.
  - destruct (step_core b1 b2 a1 a2 s tau B pb pa) as (Hd & tau' & Hl & Hu & He & Ho);
      try assumption.
    { right. split; assumption. }
    exists tau', (pa + Qabs ((B - pb) / (b2 - pb)) * (a2 - pa)), B.
    split; [|split; [|split]].
    + unfold interpolateX, pointInLine; simpl. qtest; [contradiction|reflexivity].
    + repeat split; try assumption. lra.
    + rewrite Ho. apply (between a1 (a2 - a1) tau tau' s); try assumption.
      * rewrite <- Hpa. exact HLR.
      * split; assumption.
    + lra.
  - exists tau, pa, pb. repeat split; try assumption; apply HLR.
Qed.

End ClipPath.

Lemma inArea_fin (pa pb L R T B : Q) :
  inArea (Point.mk (Fin pa) (Fin pb)) (mkArea (Fin T) (Fin R) (Fin B) (Fin L)) = true
  <-> (L <= pa <= R /\ T <= pb <= B).
Proof.
  unfold inArea; simpl.
  rewrite !andb_true_iff, !Qle_bool_iff. tauto.
Qed.

Lemma interpolateY_fin (e a1 b1 a2 b2 : Q) :
  ~ a2 - a1 == 0 ->
  exists v, interpolateY (Fin e) (Point.mk (Fin a1) (Fin b1)) (Point.mk (Fin a2) (Fin b2))
            = Fin v.
Proof.
  intros Hd. unfold interpolateY, pointInLine.
  cbn [Point.x Point.y Num.sub Num.add Num.neg].
  rewrite div_fin by exact Hd.
  cbn [Num.abs Num.mul Num.add]. eexists. reflexivity.
Qed.

(** When the two end points do not lie on the same side of the viewport,
    the left and right clips give a point with a finite height and an
    abscissa within the viewport. *)
Lemma limitSides_fin (a1 b1 a2 b2 L R T B : Q) :
  L <= R -> ~ (a1 < L /\ a2 < L) -> ~ (R < a1 /\ R < a2) ->
  exists qx qy,
    limitSides (Point.mk (Fin a1) (Fin b1)) (Point.mk (Fin a2) (Fin b2))
               (mkArea (Fin T) (Fin R) (Fin B) (Fin L))
    = Point.mk (Fin qx) (Fin qy)
    /\ L <= qx <= R.
Proof.
  intros HLR HnL HnR. unfold limitSides, limitLeft, limitRight, Num.gt.
  cbn [Point.x Point.y left right Num.lt].
  qtest.
  - destruct (interpolateY_fin L a1 b1 a2 b2) as [v Ev].
    { intros Hz. apply HnL. split; lra. }
    rewrite Ev. cbn [Point.x Point.y Num.lt].
    qtest; [lra|]. exists L, v. split; [reflexivity | lra].
  - cbn [Point.x Point.y Num.lt]. qtest.
    + destruct (interpolateY_fin R a1 b1 a2 b2) as [v Ev].
      { intros Hz. apply HnR. split; lra. }
      rewrite Ev. exists R, v. split; [reflexivity | lra].
    + exists a1, b1. split; [reflexivity | lra].
Qed.

(** The top and bottom clips bring a finite height between the top and
    the bottom of the viewport, and leave alone a point that is there. *)
Lemma limitBand (qx : num) (qy : Q) (p2 : Point.t) (L R : num) (T B : Q) :
  T <= B ->
  let a := mkArea (Fin T) R (Fin B) L in
  let q := Point.mk qx (Fin qy) in
  let r := limitBottom (limitTop q p2 a) p2 a in
  inBand r a = true /\ clippedFrom r q p2 a.
Proof.
  intros HTB a q r. subst r q a.
  unfold clippedFrom, inBand, limitTop, limitBottom, Num.gt.
  cbn [Point.x Point.y top bottom Num.lt Num.le].
  qtest; cbn [Point.x Point.y Num.lt Num.le]; qtest;
    cbn [Point.x Point.y Num.lt Num.le]; try lra.
  - split.
    + apply andb_true_iff. split; apply Qle_bool_iff; lra.
    + right. left. split; reflexivity.
  - split.
    + apply andb_true_iff. split; apply Qle_bool_iff; lra.
    + right. right. split; reflexivity.
  - assert (H : Qle_bool T qy && Qle_bool qy B = true)
      by (apply andb_true_iff; split; apply Qle_bool_iff; lra).
    split; [exact H|]. left. split; [exact H | reflexivity].
Qed.

(** A point that is returned as the clips at the left and right edges left
    it, within the viewport in both directions, is a point of the
    viewport. *)
Lemma inArea_of_sides_band (p : Point.t) (a : Area) :
  inSides p a = true -> inBand p a = true -> inArea p a = true.
Proof.
  unfold inSides, inBand, inArea. rewrite !andb_true_iff. tauto.
Qed.

Lemma clippedFrom_inBand (r q p2 : Point.t) (a : Area) :
  clippedFrom r q p2 a -> inBand q a = true -> r = q.
Proof.
  unfold inBand. rewrite andb_true_iff. intros [[_ H]|[[H _]|[H _]]] [Ht Hb].
  - exact H.
  - apply le_not_gt in Ht. congruence.
  - apply le_not_gt in Hb. unfold Num.gt in H. congruence.
Qed.

Lemma limitPointToArea_band (a1 b1 a2 b2 L R T B : Q) :
  L <= R -> T <= B -> ~ (a1 < L /\ a2 < L) -> ~ (R < a1 /\ R < a2) ->
  let p := Point.mk (Fin a1) (Fin b1) in
  let p2 := Point.mk (Fin a2) (Fin b2) in
  let a := mkArea (Fin T) (Fin R) (Fin B) (Fin L) in
  let q := limitSides p p2 a in
  let r := limitPointToArea p p2 a in
  inSides q a = true
  /\ inBand r a = true
  /\ clippedFrom r q p2 a
  /\ (inBand q a = true -> r = q /\ inArea r a = true).
Proof.
  intros HLR HTB HnL HnR p p2 a q r.
  destruct (limitSides_fin a1 b1 a2 b2 L R T B HLR HnL HnR) as (qx & qy & Eq & Hqx).
  fold p p2 a q in Eq.
  assert (Er : r = limitBottom (limitTop q p2 a) p2 a) by reflexivity.
  destruct (limitBand (Fin qx) qy p2 (Fin L) (Fin R) T B HTB) as [H1 H2].
  fold a in H1, H2. rewrite <- Eq, <- Er in H1, H2.
  assert (Hs : inSides q a = true).
  { rewrite Eq. unfold inSides. subst a. cbn [Point.x left right Num.le].
    apply andb_true_iff. split; apply Qle_bool_iff; lra. }
  split; [exact Hs|]. split; [exact H1|]. split; [exact H2|].
  intros Hb. pose proof (clippedFrom_inBand r q p2 a H2 Hb) as E.
  split; [exact E|]. rewrite E. apply inArea_of_sides_band; assumption.
Qed.

(** The overlap test keeps the two end points from lying both left of the
    viewport, and from lying both right of it. *)
Lemma overlap_sides (a1 b1 a2 b2 L R T B : Q) :
  isLineInArea (mkCoords (Fin a1) (Fin b1) (Fin a2) (Fin b2))
               (mkArea (Fin T) (Fin R) (Fin B) (Fin L)) = true ->
  ~ (a1 < L /\ a2 < L) /\ ~ (R < a1 /\ R < a2).
Proof.
  unfold isLineInArea, Num.gt. cbn [x y x2 y2 left right top bottom Num.lt].
  rewrite negb_true_iff, !orb_false_iff, !andb_false_iff.
  intros [[[H1 H2] _] _].
  split; intros [Ha Hb]; apply Qltb_lt in Ha, Hb.
  - destruct H1; congruence.
  - destruct H2; congruence.
Qed.

(** C1 (as amended): for a line with finite coordinates that passes the
    overlap test of a finite viewport with [left <= right] and
    [top <= bottom], the clips at the left and right edges bring the
    abscissa of each end point within [left, right], and both end points
    produced by the clipper satisfy [top <= y <= bottom].  An end point
    that the clips at the left and right edges left within [top, bottom] is
    returned as it is, and satisfies [left <= x <= right] as well; any
    other lies on the top or on the bottom edge, at the abscissa that
    [interpolateX] computes and that is not tested again. *)
Theorem limitLineToArea_within_band (l : Coords) (a : Area) :
  finiteCoords l = true -> finiteArea a = true ->
  (left a <=? right a)%js = true -> (top a <=? bottom a)%js = true ->
  isLineInArea l a = true ->
  let p1 := startPoint l in
  let p2 := endPoint l in
  let r := Props.coords (limitLineToArea p1 p2 a) in
  let q1 := limitSides p1 p2 a in
  let q2 := limitSides p2 p1 a in
  (inSides q1 a = true
   /\ inBand (startPoint r) a = true
   /\ clippedFrom (startPoint r) q1 p2 a
   /\ (inBand q1 a = true -> startPoint r = q1 /\ inArea (startPoint r) a = true))
  /\ (inSides q2 a = true
      /\ inBand (endPoint r) a = true
      /\ clippedFrom (endPoint r) q2 p1 a
      /\ (inBand q2 a = true -> endPoint r = q2 /\ inArea (endPoint r) a = true)).
Proof.
  intros Hl Ha HLR HTB Hin p1 p2 r q1 q2.
  destruct l as [[a1| | |] [b1| | |] [a2| | |] [b2| | |]]; try discriminate.
  destruct a as [[T| | |] [R| | |] [B| | |] [L| | |]]; try discriminate.
  cbn [left right top bottom Num.le] in HLR, HTB.
  apply Qle_bool_iff in HLR, HTB.
  destruct (overlap_sides _ _ _ _ _ _ _ _ Hin) as [HnL HnR].
  assert (HnL' : ~ (a2 < L /\ a1 < L)) by tauto.
  assert (HnR' : ~ (R < a2 /\ R < a1)) by tauto.
  pose proof (limitPointToArea_band a1 b1 a2 b2 L R T B HLR HTB HnL HnR) as S.
  pose proof (limitPointToArea_band a2 b2 a1 b1 L R T B HLR HTB HnL' HnR') as E.
  cbv zeta in S, E.
  assert (Es : startPoint r
               = limitPointToArea p1 p2 (mkArea (Fin T) (Fin R) (Fin B) (Fin L))).
  { subst r. unfold limitLineToArea, startPoint. cbv zeta. cbn [Props.coords x y].
    destruct (limitPointToArea _ _ _); reflexivity. }
  assert (Ee : endPoint r
               = limitPointToArea p2 p1 (mkArea (Fin T) (Fin R) (Fin B) (Fin L))).
  { subst r. unfold limitLineToArea, endPoint. cbv zeta. cbn [Props.coords x2 y2].
    destruct (limitPointToArea p2 _ _); reflexivity. }
  rewrite Es, Ee. split; [exact S | exact E].
Qed.

(** The line from (0, -50) to (156, 28) in the viewport [0, 100] x [0, 100]:
    the start point is moved by the clip at the top edge, the end point by
    the clip at the right edge only. *)
Lemma limitLineToArea_within_band_witness :
  let l := mkCoords (int 0) (int (-50)) (int 156) (int 28) in
  let a := mkArea (int 0) (int 100) (int 100) (int 0) in
  let r := Props.coords (limitLineToArea (startPoint l) (endPoint l) a) in
  (finiteCoords l = true /\ finiteArea a = true
   /\ (left a <=? right a)%js = true /\ (top a <=? bottom a)%js = true
   /\ isLineInArea l a = true
   /\ inBand (limitSides (endPoint l) (startPoint l) a) a = true)
  /\ inBand (startPoint r) a = true
  /\ inBand (endPoint r) a = true
  /\ inArea (endPoint r) a = true.
Proof.
  intros l a r.
  assert (H : finiteCoords l = true /\ finiteArea a = true
              /\ (left a <=? right a)%js = true /\ (top a <=? bottom a)%js = true
              /\ isLineInArea l a = true
              /\ inBand (limitSides (endPoint l) (startPoint l) a) a = true)
    by (repeat split).
  split; [exact H|].
  destruct H as (H1 & H2 & H3 & H4 & H5 & H6).
  destruct (limitLineToArea_within_band l a H1 H2 H3 H4 H5)
    as ((_ & S & _) & (_ & E & _ & W)).
  split; [exact S|]. split; [exact E|].
  exact (proj2 (W H6)).
Defined.

(** The bounding box of the segment from (-10, 5) to (10, -15) overlaps the
    viewport [0, 100] x [0, 100], the segment misses it, and the clipper
    moves the second end point to (-5, 0), left of the viewport. *)
Lemma limitLineToArea_overlap_counterexample :
  let l := mkCoords (int (-10)) (int 5) (int 10) (int (-15)) in
  let area := mkArea (int 0) (int 100) (int 100) (int 0) in
  let r := Props.coords (limitLineToArea (startPoint l) (endPoint l) area) in
  isLineInArea l area = true
  /\ (x2 r ~= int (-5))%js /\ (y2 r ~= int 0)%js
  /\ (left area <=? x2 r)%js = false
  /\ inArea (endPoint r) area = false.
Proof. vm_compute. repeat split. Qed.

(** A point of the viewport passes the four tests of the clipper. *)
Lemma limitPointToArea_inside (p p2 : Point.t) (area : Area) :
  inArea p area = true -> limitPointToArea p p2 area = p.
Proof.
  unfold inArea. rewrite !andb_true_iff. intros [[[Hl Hr] Ht] Hb].
  apply le_not_gt in Hl, Hr, Ht, Hb.
  unfold limitPointToArea.
  assert (E1 : limitLeft p p2 area = p) by (unfold limitLeft; now rewrite Hl).
  rewrite E1.
  assert (E2 : limitRight p p2 area = p)
    by (unfold limitRight, Num.gt; now rewrite Hr).
  rewrite E2.
  assert (E3 : limitTop p p2 area = p) by (unfold limitTop; now rewrite Ht).
  rewrite E3.
  unfold limitBottom, Num.gt. now rewrite Hb.
Qed.

(** C6: a line whose two end points lie in the viewport is returned by the
    clipper with its end points unchanged. *)
Theorem limitLineToArea_idempotent (p1 p2 : Point.t) (area : Area) :
  inArea p1 area = true ->
  inArea p2 area = true ->
  Props.coords (limitLineToArea p1 p2 area)
  = mkCoords (Point.x p1) (Point.y p1) (Point.x p2) (Point.y p2).
Proof.
  intros H1 H2. unfold limitLineToArea. cbv zeta. cbn [Props.coords].
  rewrite (limitPointToArea_inside p1 p2 area H1).
  rewrite (limitPointToArea_inside p2 p1 area H2).
  reflexivity.
Qed.

Lemma limitLineToArea_idempotent_witness :
  let area := mkArea (int 0) (int 100) (int 100) (int 0) in
  let p1 := Point.mk (int 0) (int 30) in
  let p2 := Point.mk (int 100) (int 70) in
  inArea p1 area = true /\ inArea p2 area = true
  /\ Props.coords (limitLineToArea p1 p2 area)
     = mkCoords (int 0) (int 30) (int 100) (int 70).
Proof.
  intros area p1 p2.
  assert (H1 : inArea p1 area = true) by reflexivity.
  assert (H2 : inArea p2 area = true) by reflexivity.
  split; [exact H1|]. split; [exact H2|].
  exact (limitLineToArea_idempotent p1 p2 area H1 H2).
Defined.

(** ** The resolver *)

(** The overlap test fails exactly when the line lies entirely on one side
    of the viewport. *)
Lemma isLineInArea_false (l : Coords) (a : Area) :
  isLineInArea l a = false <->
  ((x l <? left a) = true /\ (x2 l <? left a) = true
   \/ (x l >? right a) = true /\ (x2 l >? right a) = true
   \/ (y l <? top a) = true /\ (y2 l <? top a) = true
   \/ (y l >? bottom a) = true /\ (y2 l >? bottom a) = true)%js.
Proof.
  unfold isLineInArea.
  rewrite negb_false_iff, !orb_true_iff, !andb_true_iff. tauto.
Qed.

(** C3: a line that lies entirely left of, right of, above or below the
    viewport is returned with its raw coordinates, with
    [width = |x2 - x|] and [height = |y2 - y|], and the overlap test fails
    on the result. *)
Theorem resolveElementProperties_outside
    (scaleValue : Scale -> Value -> num -> num)
    (chart : Chart) (options : Options) :
  let c := rawCoords scaleValue chart options in
  let a := chartArea chart in
  ((x c <? left a) = true /\ (x2 c <? left a) = true
   \/ (x c >? right a) = true /\ (x2 c >? right a) = true
   \/ (y c <? top a) = true /\ (y2 c <? top a) = true
   \/ (y c >? bottom a) = true /\ (y2 c >? bottom a) = true)%js ->
  let r := resolveElementProperties scaleValue chart options in
  Props.coords r = c
  /\ Props.width r = Num.abs (x2 c - x c)%js
  /\ Props.height r = Num.abs (y2 c - y c)%js
  /\ isLineInArea (Props.coords r) a = false.
Proof.
  intros c a Hout r. apply isLineInArea_false in Hout.
  subst r. unfold resolveElementProperties. cbv zeta.
  fold c a. rewrite Hout. cbn [Props.coords Props.width Props.height].
  repeat split. exact Hout.
Qed.

Lemma resolveElementProperties_outside_witness :
  let c := rawCoords pixelOrFallback sampleChart offscreenOptions in
  ((x c >? int 100) = true /\ (x2 c >? int 100) = true)%js
  /\ Props.coords (resolveElementProperties pixelOrFallback sampleChart offscreenOptions)
     = mkCoords (int 200) (int 10) (int 300) (int 20).
Proof.
  intros c.
  assert (H : ((x c >? int 100) = true /\ (x2 c >? int 100) = true)%js)
    by (split; vm_compute; reflexivity).
  split; [exact H|].
  destruct (resolveElementProperties_outside pixelOrFallback sampleChart
              offscreenOptions (or_intror (or_introl H))) as [E _].
  rewrite E. vm_compute. reflexivity.
Defined.

(** ** The centre point *)

Lemma eqv_refl (a : num) : (a ~= a)%js.
Proof. destruct a; simpl; trivial. reflexivity. Qed.

Lemma half_sum_comm (a b : num) : ((a + b) / int 2 ~= (b + a) / int 2)%js.
Proof.
  destruct a, b; simpl; trivial. field.
Qed.

(** C10: [getCenterPoint] returns the arithmetic midpoint of the resolved
    end points, [((x + x2) / 2, (y + y2) / 2)]; so it does for a line that
    the resolver left unclipped outside the viewport, and that centre point
    can lie outside the viewport. *)
Theorem getCenterPoint_midpoint :
  (forall this : LineAnnotation,
      let c := coords this in
      Point_eqv (getCenterPoint this)
                (Point.mk ((x c + x2 c) / int 2)%js ((y c + y2 c) / int 2)%js))
  /\ (forall (a b a2 b2 : Q) (o : Options),
         Point_eqv
           (getCenterPoint (mkLine (mkCoords (Fin a) (Fin b) (Fin a2) (Fin b2)) o))
           (Point.mk (Fin ((a + a2) / 2)) (Fin ((b + b2) / 2))))
  /\ (let r := resolveElementProperties pixelOrFallback sampleChart offscreenOptions in
      isLineInArea (rawCoords pixelOrFallback sampleChart offscreenOptions)
                   (chartArea sampleChart) = false
      /\ Point_eqv (getCenterPoint (mkLine (Props.coords r) offscreenOptions))
                   (Point.mk (int 250) (int 15))
      /\ inArea (getCenterPoint (mkLine (Props.coords r) offscreenOptions))
                (chartArea sampleChart) = false).
Proof.
  split; [|split].
  - intros this c. unfold getCenterPoint, Point_eqv. cbn [Point.x Point.y].
    fold c. split; apply half_sum_comm.
  - intros a b a2 b2 o. unfold getCenterPoint, Point_eqv; simpl. split; field.
  - vm_compute. repeat split.
Qed.

(** ** The label placer *)

Lemma add_eqv_l (a b c : num) : (a ~= b -> a + c ~= b + c)%js.
Proof.
  destruct a, b, c; simpl; trivial; try contradiction. intros H. lra.
Qed.

Lemma lt_fin_mono (d : num) (w w' : Q) :
  Num.lt d (Fin w) = true -> w <= w' -> Num.lt d (Fin w') = true.
Proof.
  destruct d; simpl; trivial. rewrite !Qltb_lt. intros H1 H2. lra.
Qed.

(** The first branch of [adjustLabelCoordinate]: a footprint larger than
    the viewport is centred. *)
Lemma adjustLabelCoordinate_too_large (c : num) (sizes : LabelSizes.t) :
  (LabelSizes.size sizes >? LabelSizes.max sizes - LabelSizes.min sizes)%js = true ->
  adjustLabelCoordinate c sizes
  = ((LabelSizes.max sizes + LabelSizes.min sizes) / int 2)%js.
Proof.
  intros H. unfold adjustLabelCoordinate. cbv zeta. rewrite H. reflexivity.
Qed.

(** C5: when the rotated footprint of the label exceeds the extent of the
    viewport on an axis, the clamped anchor on that axis is the centre
    [(min + max) / 2] of the viewport, to which the offset [xAdjust] or
    [yAdjust] is then added; for a label that is not rotated, a content
    wider than the viewport gives the horizontal centre. *)
Theorem label_centered_when_too_large
    (PI : num) (Math_cos Math_sin : num -> num)
    (Math_atan2 : num -> num -> num) (toRadians : num -> num)
    (line : LineAnnotation) (width height : num) (area : Area) :
  let rect := calculateLabelPosition PI Math_cos Math_sin Math_atan2 toRadians
                line width height area in
  let size := rotatedSize Math_cos Math_sin width height (LabelRect.rotation rect) in
  let lbl := label (options line) in
  (forall (c : num) (sizes : LabelSizes.t),
      (LabelSizes.size sizes >? LabelSizes.max sizes - LabelSizes.min sizes)%js = true ->
      (adjustLabelCoordinate c sizes
       ~= (LabelSizes.min sizes + LabelSizes.max sizes) / int 2)%js)
  /\ ((Size.w size >? right area - left area)%js = true ->
      (LabelRect.x rect ~= (left area + right area) / int 2 + xAdjust lbl)%js)
  /\ ((Size.h size >? bottom area - top area)%js = true ->
      (LabelRect.y rect ~= (top area + bottom area) / int 2 + yAdjust lbl)%js)
  /\ (Math_cos (LabelRect.rotation rect) = int 1 ->
      Math_sin (LabelRect.rotation rect) = int 0 ->
      Num.is_finite width = true -> Num.is_finite height = true ->
      (width >? right area - left area)%js = true ->
      (LabelRect.x rect ~= (left area + right area) / int 2 + xAdjust lbl)%js).
Proof.
  intros rect size lbl.
  assert (Hx : (Size.w size >? right area - left area)%js = true ->
               (LabelRect.x rect
                ~= (left area + right area) / int 2 + xAdjust lbl)%js).
  { intros H. subst rect. unfold calculateLabelPosition. cbv zeta.
    cbn [LabelRect.x]. rewrite adjustLabelCoordinate_too_large.
    - cbn [LabelSizes.max LabelSizes.min]. apply add_eqv_l, half_sum_comm.
    - cbn [LabelSizes.size LabelSizes.max LabelSizes.min]. exact H. }
  split; [|split; [exact Hx|split]].
  - intros c sizes H. rewrite (adjustLabelCoordinate_too_large c sizes H).
    apply half_sum_comm.
  - intros H. subst rect. unfold calculateLabelPosition. cbv zeta.
    cbn [LabelRect.y]. rewrite adjustLabelCoordinate_too_large.
    + cbn [LabelSizes.max LabelSizes.min]. apply add_eqv_l, half_sum_comm.
    + cbn [LabelSizes.size LabelSizes.max LabelSizes.min]. exact H.
  - intros Hcos Hsin Hw Hh Hwide. apply Hx.
    subst size. unfold rotatedSize. cbv zeta. cbn [Size.w].
    rewrite Hcos, Hsin.
    destruct width as [w| | |], height as [h| | |]; try discriminate.
    unfold int, Num.gt. cbn [Num.mul Num.abs Num.add].
    apply (lt_fin_mono _ w); [exact Hwide|].
    assert (Ha : 0 <= Qabs (h * 0)) by apply Qabs_nonneg.
    assert (Hb : w * 1 <= Qabs (w * 1)) by apply Qle_Qabs.
    lra.
Qed.

Lemma label_centered_when_too_large_witness :
  let area := mkArea (int 0) (int 100) (int 100) (int 0) in
  let line := mkLine (mkCoords (int 0) (int 50) (int 100) (int 50)) defaultOptions in
  let rect := calculateLabelPosition (Fin (355 # 113)) (fun _ => int 1) (fun _ => int 0)
                (fun _ _ => int 0) (fun d => d) line (int 200) (int 20) area in
  (int 200 >? right area - left area)%js = true
  /\ (LabelRect.x rect
      ~= (left area + right area) / int 2 + xAdjust defaultLabel)%js.
Proof.
  intros area line rect.
  assert (H : (int 200 >? right area - left area)%js = true) by reflexivity.
  split; [exact H|].
  pose proof (label_centered_when_too_large (Fin (355 # 113)) (fun _ => int 1)
                (fun _ => int 0) (fun _ _ => int 0) (fun d => d)
                line (int 200) (int 20) area) as (_ & _ & _ & W).
  specialize (W eq_refl eq_refl eq_refl eq_refl H).
  exact W.
Defined.

(** *** Finite numbers are closed under the arithmetic of the placer *)

Lemma finite_inv (a : num) : Num.is_finite a = true -> exists q, a = Fin q.
Proof. destruct a; try discriminate. intros _. eexists; reflexivity. Qed.

Lemma finite_add (a b : num) :
  Num.is_finite a = true -> Num.is_finite b = true ->
  Num.is_finite (a + b)%js = true.
Proof. destruct a, b; simpl; congruence. Qed.

Lemma finite_sub (a b : num) :
  Num.is_finite a = true -> Num.is_finite b = true ->
  Num.is_finite (a - b)%js = true.
Proof. destruct a, b; simpl; congruence. Qed.

Lemma finite_mul (a b : num) :
  Num.is_finite a = true -> Num.is_finite b = true ->
  Num.is_finite (a * b)%js = true.
Proof. destruct a, b; simpl; congruence. Qed.

Lemma finite_min (a b : num) :
  Num.is_finite a = true -> Num.is_finite b = true ->
  Num.is_finite (Num.min a b) = true.
Proof. destruct a, b; simpl; try congruence. intros _ _. now qtest. Qed.

Lemma finite_max (a b : num) :
  Num.is_finite a = true -> Num.is_finite b = true ->
  Num.is_finite (Num.max a b) = true.
Proof. destruct a, b; simpl; try congruence. intros _ _. now qtest. Qed.

Lemma finite_div_pos (a b : num) :
  Num.is_finite a = true -> Num.is_finite b = true ->
  (b >? int 0)%js = true ->
  Num.is_finite (a / b)%js = true.
Proof.
  destruct a, b; simpl; try congruence. intros _ _.
  unfold Num.gt; simpl. rewrite Qltb_lt. intros Hpos.
  qtest; [lra | reflexivity].
Qed.

Lemma finite_half (a : num) :
  Num.is_finite a = true -> Num.is_finite (a / int 2)%js = true.
Proof. destruct a; simpl; congruence. Qed.

Lemma finite_sign (c : bool) : Num.is_finite (if c then int 1 else int (-1)) = true.
Proof. destruct c; reflexivity. Qed.

Create HintDb finite.

#[local] Hint Resolve finite_add finite_sub finite_mul finite_min finite_max
  finite_half finite_sign : finite.

(** [clamp] keeps a finite number between its two finite bounds. *)
Lemma clamp_range (v : num) (lo hi : Q) :
  Num.is_finite v = true -> lo <= hi ->
  exists r, clamp v (Fin lo) (Fin hi) = Fin r /\ lo <= r <= hi.
Proof.
  intros Hv Hlh. destruct (finite_inv v Hv) as [q ->].
  unfold clamp; simpl.
  qtest; simpl; qtest; eexists; (split; [reflexivity | lra]).
Qed.

Lemma spaceAround_finite (line : Coords) (area : Area) :
  finiteCoords line = true -> finiteArea area = true ->
  Num.is_finite (Space.x (spaceAround line area)) = true
  /\ Num.is_finite (Space.y (spaceAround line area)) = true
  /\ Num.is_finite (Space.dx (spaceAround line area)) = true
  /\ Num.is_finite (Space.dy (spaceAround line area)) = true.
Proof.
  unfold finiteCoords, finiteArea. rewrite !andb_true_iff.
  intros [[[Hx Hy] Hx2] Hy2] [[[Ht Hr] Hb] Hl].
  unfold spaceAround. cbv zeta. cbn [Space.x Space.y Space.dx Space.dy].
  repeat split; auto 6 with finite.
Qed.

(** The adjustment of [calculateTAdjust] lies between 0 and 0.25. *)
Lemma calculateTAdjust_range (lineSize labelSize : Size.t) (label : Label)
    (space : Space.t) :
  finiteSize lineSize = true -> finiteSize labelSize = true ->
  finitePadding label = true ->
  Num.is_finite (Space.x space) = true -> Num.is_finite (Space.y space) = true ->
  Num.is_finite (Space.dx space) = true -> Num.is_finite (Space.dy space) = true ->
  exists r, calculateTAdjust lineSize labelSize label space = Fin r
            /\ 0 <= r <= 1 # 4.
Proof.
  unfold finiteSize, finitePadding. rewrite !andb_true_iff.
  intros [Hlw Hlh] [Hw Hh] [Hxp Hyp] Hsx Hsy Hdx Hdy.
  unfold calculateTAdjust. cbv zeta.
  apply clamp_range; [|discriminate].
  apply finite_max.
  - unfold andNum. destruct (_ >? int 0)%js eqn:Hpos; [|reflexivity].
    cbn [toNumber]. apply finite_div_pos; auto 6 with finite.
  - unfold andNum. destruct (_ >? int 0)%js eqn:Hpos; [|reflexivity].
    cbn [toNumber]. apply finite_div_pos; auto 6 with finite.
Qed.

(** C4 (as amended): the placement parameter is 0.5 for the position
    "center"; on finite inputs it lies in [0, 0.25] for "start", in
    [0.75, 1] for "end", and in [0, 1] for every position. *)
Theorem calculateT_range (line : LineAnnotation) (position : string)
    (rotSize : Size.t) (area : Area) :
  (position = "center"%string ->
   calculateT line position rotSize area = Fin (1 # 2))
  /\ (finiteCoords (coords line) = true -> finiteArea area = true ->
      finiteSize rotSize = true -> finitePadding (label (options line)) = true ->
      exists t, calculateT line position rotSize area = Fin t
                /\ 0 <= t <= 1
                /\ (position = "start"%string -> 0 <= t <= 1 # 4)
                /\ (position = "end"%string -> 3 # 4 <= t <= 1)).
Proof.
  split.
  - intros ->. reflexivity.
  - intros Hc Ha Hs Hp.
    destruct (spaceAround_finite _ _ Hc Ha) as (Hsx & Hsy & Hdx & Hdy).
    unfold finiteCoords in Hc. rewrite !andb_true_iff in Hc.
    destruct Hc as [[[Hx Hy] Hx2] Hy2].
    unfold calculateT. cbv zeta.
    destruct (String.eqb position "start") eqn:Estart;
      [|destruct (String.eqb position "end") eqn:Eend].
    + destruct (calculateTAdjust_range
                  {| Size.w := (x2 (coords line) - x (coords line))%js;
                     Size.h := (y2 (coords line) - y (coords line))%js |}
                  rotSize (label (options line))
                  (spaceAround (coords line) area))
        as (r & Er & Hr); auto.
      { unfold finiteSize; cbn [Size.w Size.h].
        apply andb_true_iff; split; auto with finite. }
      exists r. rewrite Er.
      split; [reflexivity|]. split; [lra|]. split; [intros _; exact Hr|].
      intros ->. discriminate.
    + destruct (calculateTAdjust_range
                  {| Size.w := (x (coords line) - x2 (coords line))%js;
                     Size.h := (y (coords line) - y2 (coords line))%js |}
                  rotSize (label (options line))
                  (spaceAround (coords line) area))
        as (r & Er & Hr); auto.
      { unfold finiteSize; cbn [Size.w Size.h].
        apply andb_true_iff; split; auto with finite. }
      exists (1 - r). rewrite Er.
      split; [reflexivity|]. split; [lra|]. split; [|intros _; lra].
      intros ->. discriminate.
    + exists (1 # 2).
      split; [reflexivity|]. split; [lra|].
      split; intros ->; discriminate.
Qed.

Lemma calculateT_range_witness :
  let line := mkLine (mkCoords (int 0) (int 50) (int 90) (int 50)) defaultOptions in
  let area := mkArea (int 0) (int 100) (int 100) (int 0) in
  let rotSize := Size.mk (int 40) (int 20) in
  (finiteCoords (coords line) = true /\ finiteArea area = true
   /\ finiteSize rotSize = true /\ finitePadding (label (options line)) = true)
  /\ exists t, calculateT line "start" rotSize area = Fin t /\ 0 <= t <= 1 # 4.
Proof.
  intros line area rotSize.
  split; [repeat split|].
  destruct (calculateT_range line "start" rotSize area) as [_ H].
  destruct (H eq_refl eq_refl eq_refl eq_refl) as (t & E & _ & S & _).
  exists t. split; [exact E | exact (S eq_refl)].
Defined.

(** A line along a scale that did not resolve has NaN abscissas, and
    under the rotation "auto" its label has a NaN footprint: for the
    position "end" the placement parameter is then NaN, which is not in
    [[0.75, 1]]. *)
Lemma calculateT_nan_counterexample :
  let line := mkLine (mkCoords NaN (int 0) NaN (int 100)) defaultOptions in
  let area := mkArea (int 0) (int 100) (int 100) (int 0) in
  let rotSize := Size.mk NaN NaN in
  calculateT line "end" rotSize area = NaN
  /\ (Fin (3 # 4) <=? calculateT line "end" rotSize area)%js = false
  /\ (calculateT line "end" rotSize area <=? int 1)%js = false.
Proof. vm_compute. repeat split. Qed.

Lemma half_spec (w : Q) : 2 * (w / 2) == w.
Proof. field. Qed.

(** ** The hit test *)

Lemma squares_nonneg (a b : Q) : 0 <= a * a + b * b.
Proof. nra. Qed.
Lemma Qltb_proper (a b c : Q) : a == b -> Num.Qltb a c = Num.Qltb b c.
Proof.
  intros H. destruct (Num.Qltb b c) eqn:E.
  - apply Qltb_lt. apply Qltb_lt in E. lra.
  - apply Qltb_ge. apply Qltb_ge in E. lra.
Qed.

Lemma lt_nan_r (a : num) : Num.lt a NaN = false.
Proof. destruct a; reflexivity. Qed.

Lemma sqr_sum_not_below (a b epsilon : num) :
  (epsilon <=? int 0)%js = true -> (sqr a + sqr b <? epsilon)%js = false.
Proof.
  destruct a as [a| | |], b as [b| | |], epsilon as [e| | |];
    simpl; try congruence.
  rewrite Qle_bool_iff, Qltb_ge. intros He.
  pose proof (squares_nonneg a b). lra.
Qed.



(** The start point of a line projects to the parameter 0 or, on a line
    of length zero, is the point selected by the guard: [intersects]
    compares the squared distance 0 with epsilon. *)
Lemma intersects_start_point (x1 y1 x2' y2' : Q) (o : Options) (epsilon : num) :
  intersects (mkLine (mkCoords (Fin x1) (Fin y1) (Fin x2') (Fin y2')) o)
             (Fin x1) (Fin y1) epsilon
  = (int 0 <? epsilon)%js.
Proof.
  unfold intersects, projection, sqr, int, Num.gt.
  cbn [coords Num.sub Num.add Num.mul Num.neg Num.seq].
  qtest.
  - cbn [Num.lt]. change (Num.Qltb (-1 # 1) (0 # 1)) with true. cbv iota.
    cbn [Point.x Point.y Num.sub Num.add Num.mul Num.neg].
    destruct epsilon; cbn [Num.lt]; try reflexivity.
    apply Qltb_proper. ring.
  - rewrite div_fin by assumption. cbn [Num.lt].
    assert (Et : ((x1 + - x1) * (x2' + - x1) + (y1 + - y1) * (y2' + - y1))
                 / ((x2' + - x1) * (x2' + - x1) + (y2' + - y1) * (y2' + - y1)) == 0)
      by (field; assumption).
    remember (((x1 + - x1) * (x2' + - x1) + (y1 + - y1) * (y2' + - y1))
              / ((x2' + - x1) * (x2' + - x1) + (y2' + - y1) * (y2' + - y1))) as t eqn:E.
    clear E.
    qtest; [lra|]. qtest; [lra|].
    cbn [Point.x Point.y Num.sub Num.add Num.mul Num.neg].
    destruct epsilon; cbn [Num.lt]; try reflexivity.
    apply Qltb_proper. rewrite Et. ring.
Qed.




Lemma zero_length_guard (a b : Q) :
  ((sqr (Fin a - Fin a) + sqr (Fin b - Fin b))%js === int 0)%js = true.
Proof.
  unfold sqr, int. cbn [Num.sub Num.add Num.mul Num.neg Num.seq].
  apply Qeq_bool_iff. ring.
Qed.

Lemma Qcompare_self_diff (a : Q) : (a + - a ?= 0) = Eq.
Proof. apply Qeq_alt. ring. Qed.

(** On a segment of length zero the interpolation divides by zero and
    yields NaN. *)
Lemma interpolate_zero_length (v a b : Q) :
  let p := Point.mk (Fin a) (Fin b) in
  interpolateX (Fin v) p p = NaN /\ interpolateY (Fin v) p p = NaN.
Proof.
  assert (Ha : Qeq_bool (a + - a) 0 = true) by (apply Qeq_bool_iff; ring).
  assert (Hb : Qeq_bool (b + - b) 0 = true) by (apply Qeq_bool_iff; ring).
  unfold interpolateX, interpolateY, pointInLine.
  cbn [Point.x Point.y Num.sub Num.add Num.neg Num.div].
  rewrite Ha, Hb. split.
  - destruct (v + - b ?= 0); cbn [Num.inf_of_sign Num.abs Num.mul Num.add];
      rewrite ?Qcompare_self_diff; reflexivity.
  - destruct (v + - a ?= 0); cbn [Num.inf_of_sign Num.abs Num.mul Num.add];
      rewrite ?Qcompare_self_diff; reflexivity.
Qed.

(** X28: [intersects] guards the segment of length zero: when the squared
    length is 0 the parameter [t] is [-1], without a division, and the
    answer is whether the squared distance from the query point to the end
    point is below epsilon; so it is for every line whose two end points
    coincide, NaN and infinite ones included.  The interpolation of the
    clipper has no such guard: on a segment of length zero it yields NaN. *)
Theorem intersects_zero_length (o : Options) (qx qy epsilon : num) :
  (forall c : Coords,
      ((sqr (x2 c - x c) + sqr (y2 c - y c))%js === int 0)%js = true ->
      projection (mkLine c o) qx qy = int (-1)
      /\ intersects (mkLine c o) qx qy epsilon
         = (sqr (qx - x c) + sqr (qy - y c) <? epsilon)%js)
  /\ (forall a b : Q,
         projection (mkLine (mkCoords (Fin a) (Fin b) (Fin a) (Fin b)) o) qx qy
         = int (-1))
  /\ (forall a b : num,
         intersects (mkLine (mkCoords a b a b) o) qx qy epsilon
         = (sqr (qx - a) + sqr (qy - b) <? epsilon)%js)
  /\ (forall v a b : Q,
         interpolateX (Fin v) (Point.mk (Fin a) (Fin b)) (Point.mk (Fin a) (Fin b)) = NaN
         /\ interpolateY (Fin v) (Point.mk (Fin a) (Fin b)) (Point.mk (Fin a) (Fin b)) = NaN).
Proof.
  assert (Hguard : forall c : Coords,
      ((sqr (x2 c - x c) + sqr (y2 c - y c))%js === int 0)%js = true ->
      projection (mkLine c o) qx qy = int (-1)
      /\ intersects (mkLine c o) qx qy epsilon
         = (sqr (qx - x c) + sqr (qy - y c) <? epsilon)%js).
  { intros [a b a2 b2] H. cbn [x y x2 y2] in *.
    assert (E : projection (mkLine (mkCoords a b a2 b2) o) qx qy = int (-1))
      by (unfold projection; cbn [coords]; rewrite H; reflexivity).
    split; [exact E|].
    unfold intersects. cbn [coords]. cbv zeta. rewrite E. reflexivity. }
  split; [exact Hguard|]. split; [|split; [|exact interpolate_zero_length]].
  - intros a b. apply (Hguard (mkCoords (Fin a) (Fin b) (Fin a) (Fin b))).
    apply zero_length_guard.
  - intros a b.
    destruct a as [a| | |], b as [b| | |].
    1: { apply (Hguard (mkCoords (Fin a) (Fin b) (Fin a) (Fin b))).
         apply zero_length_guard. }
    all: destruct qx, qy, epsilon; try reflexivity.
    all: unfold intersects, projection, sqr; simpl.
    all: repeat match goal with
                | |- context [(?p ?= ?q)%Q] => destruct (p ?= q)%Q; simpl
                end; reflexivity.
Qed.

Lemma intersects_zero_length_witness :
  let c := mkCoords (int 3) (int 4) (int 3) (int 4) in
  ((sqr (x2 c - x c) + sqr (y2 c - y c))%js === int 0)%js = true
  /\ projection (mkLine c defaultOptions) (int 3) (int 5) = int (-1)
  /\ intersects (mkLine c defaultOptions) (int 3) (int 5) (int 2) = true.
Proof.
  intros c.
  assert (H : ((sqr (x2 c - x c) + sqr (y2 c - y c))%js === int 0)%js = true)
    by reflexivity.
  split; [exact H|].
  destruct (intersects_zero_length defaultOptions (int 3) (int 5) (int 2))
    as [G _].
  destruct (G c H) as [E1 E2].
  split; [exact E1|]. rewrite E2. reflexivity.
Defined.

(** ** The automatic rotation *)

(** On the numbers of the program: when [Math.atan2] answers an angle
    between [-PI] and [PI], the rotation lies between [-PI / 2] and
    [PI / 2]. *)
Lemma calculateAutoRotation_flip (pi : Q) (Math_atan2 : num -> num -> num)
    (line : Coords) (r : Q) :
  0 < pi ->
  Math_atan2 (y2 line - y line)%js (x2 line - x line)%js = Fin r ->
  - pi <= r <= pi ->
  exists v, calculateAutoRotation (Fin pi) Math_atan2 line = Fin v
            /\ - (pi / 2) <= v <= pi / 2.
Proof.
  intros Hpi Hr [Hlo Hhi].
  pose proof (half_spec pi) as Hh.
  assert (Hn : pi / (-2 # 1) == - (pi / 2)) by field.
  unfold calculateAutoRotation, Num.gt, int. cbv zeta. rewrite Hr.
  cbn [Num.div Num.lt Num.sub Num.add Num.neg].
  change (Qeq_bool (2 # 1) 0) with false.
  change (Qeq_bool (-2 # 1) 0) with false. cbv iota.
  change (2 # 1) with 2.
  remember (pi / 2) as hp eqn:Ehp. clear Ehp.
  remember (pi / (-2 # 1)) as hn eqn:Ehn. clear Ehn.
  cbn [Num.lt].
  qtest; [|qtest]; eexists; (split; [reflexivity | lra]).
Qed.

Section RealAngleFacts.

Local Open Scope R_scope.

Lemma atan_nonpos (r : R) : r <= 0 -> atan r <= 0.
Proof.
  intros [Hlt|Heq].
  - left. rewrite <- atan_0. apply atan_increasing. exact Hlt.
  - subst r. rewrite atan_0. lra.
Qed.

Lemma atan_pos (r : R) : 0 < r -> 0 < atan r.
Proof.
  intros H. rewrite <- atan_0. apply atan_increasing. exact H.
Qed.

Lemma quotient_nonpos (y x : R) : x < 0 -> 0 <= y -> y / x <= 0.
Proof.
  intros Hx Hy. unfold Rdiv.
  assert (Hi : / x < 0) by (apply Rinv_lt_0_compat; exact Hx).
  nra.
Qed.

Lemma quotient_pos (y x : R) : x < 0 -> y < 0 -> 0 < y / x.
Proof.
  intros Hx Hy. unfold Rdiv.
  assert (Hi : / x < 0) by (apply Rinv_lt_0_compat; exact Hx).
  nra.
Qed.

(** [atan2] returns an angle between [-PI] and [PI]. *)
Lemma atan2_range (y x : R) : - PI <= RealAngle.atan2 y x <= PI.
Proof.
  pose proof PI_RGT_0 as Hpi.
  pose proof (atan_bound (y / x)) as [Hlo Hhi].
  unfold RealAngle.atan2.
  destruct (Rlt_dec 0 x) as [Hx|Hx]; [lra|].
  destruct (Rlt_dec x 0) as [Hx'|Hx'].
  - destruct (Rle_dec 0 y) as [Hy|Hy].
    + pose proof (atan_nonpos _ (quotient_nonpos y x Hx' Hy)). lra.
    + assert (Hy' : y < 0) by lra.
      pose proof (atan_pos _ (quotient_pos y x Hx' Hy')). lra.
  - destruct (Rlt_dec 0 y); [lra|]. destruct (Rlt_dec y 0); lra.
Qed.

(** C7: the rotation computed under the setting "auto" lies between
    [-PI / 2] and [PI / 2]. *)
Theorem calculateAutoRotation_upright (line : RealAngle.Line) :
  - (PI / 2) <= RealAngle.calculateAutoRotation line <= PI / 2.
Proof.
  pose proof PI_RGT_0 as Hpi.
  unfold RealAngle.calculateAutoRotation. cbv zeta.
  pose proof (atan2_range (RealAngle.y2 line - RealAngle.y line)
                          (RealAngle.x2 line - RealAngle.x line)) as [Hlo Hhi].
  destruct (Rgt_dec _ _) as [H1|H1].
  - lra.
  - destruct (Rlt_dec _ _) as [H2|H2]; lra.
Qed.

End RealAngleFacts.

(** ** The numbers of the program

    On the embedding over binary64 numbers: what rests on comparisons is
    proved for every binary64 input, and evaluations show where a
    rounding moves a result. *)

Section Binary64Facts.

Import PrimFloat FloatOps FloatAxioms SpecFloat.
Local Open Scope float_scope.
#[local] Set Warnings "-inexact-float".

(** *** The order of binary64 numbers *)

Lemma SFcompare_antisym (u v : spec_float) :
  SFcompare v u = option_map CompOpp (SFcompare u v).
Proof.
  destruct u as [s| s | | s m e], v as [s'| s' | | s' m' e']; simpl;
    try reflexivity;
    try (destruct s; reflexivity); try (destruct s'; reflexivity);
    try (destruct s, s'; reflexivity).
  destruct s, s'; try reflexivity; simpl; f_equal;
    rewrite (Z.compare_antisym e e'); destruct (e ?= e')%Z eqn:E; simpl; try reflexivity.
  all: change (Pos.compare_cont Eq m' m) with (Pos.compare m' m);
       change (Pos.compare_cont Eq m m') with (Pos.compare m m');
       rewrite (Pos.compare_antisym m m'); destruct (Pos.compare m m'); reflexivity.
Qed.

Lemma SFcompare_refl (u : spec_float) :
  u <> S754_nan -> SFcompare u u = Some Eq.
Proof.
  destruct u as [s| s | | s m e]; simpl; try congruence; intros _.
  - destruct s; reflexivity.
  - change (Pos.compare_cont Eq m m) with (Pos.compare m m).
    destruct s; rewrite Z.compare_refl, Pos.compare_refl; reflexivity.
Qed.

Lemma SFcompare_total (u v : spec_float) :
  u <> S754_nan -> v <> S754_nan -> SFcompare u v <> None.
Proof.
  destruct u as [s| s | | s m e], v as [s'| s' | | s' m' e']; simpl; congruence.
Qed.

(** A binary64 number is a number when it is not NaN. *)
Lemma is_nan_spec (a : float) : is_nan a = false <-> Prim2SF a <> S754_nan.
Proof.
  unfold is_nan. rewrite negb_false_iff, eqb_spec. unfold SFeqb. split.
  - intros H E. rewrite E in H. discriminate.
  - intros H. rewrite (SFcompare_refl _ H). reflexivity.
Qed.

Lemma ltb_not_geb (a b : float) : (a <? b) = true -> (b <=? a) = false.
Proof.
  rewrite ltb_spec, leb_spec. unfold SFltb, SFleb.
  rewrite (SFcompare_antisym (Prim2SF a) (Prim2SF b)).
  destruct (SFcompare (Prim2SF a) (Prim2SF b)) as [[| |]|]; simpl; congruence.
Qed.

Lemma leb_not_gtb (a b : float) : (a <=? b) = true -> (b <? a) = false.
Proof.
  rewrite ltb_spec, leb_spec. unfold SFltb, SFleb.
  rewrite (SFcompare_antisym (Prim2SF a) (Prim2SF b)).
  destruct (SFcompare (Prim2SF a) (Prim2SF b)) as [[| |]|]; simpl; congruence.
Qed.

Lemma not_ltb_geb (a b : float) :
  is_nan a = false -> is_nan b = false -> (a <? b) = false -> (b <=? a) = true.
Proof.
  rewrite !is_nan_spec, ltb_spec, leb_spec. unfold SFltb, SFleb. intros Ha Hb.
  rewrite (SFcompare_antisym (Prim2SF a) (Prim2SF b)).
  pose proof (SFcompare_total _ _ Ha Hb) as Ht.
  destruct (SFcompare (Prim2SF a) (Prim2SF b)) as [[| |]|]; simpl; congruence.
Qed.

Lemma leb_refl (a : float) : is_nan a = false -> (a <=? a) = true.
Proof.
  rewrite is_nan_spec, leb_spec. unfold SFleb. intros Ha.
  rewrite (SFcompare_refl _ Ha). reflexivity.
Qed.

Lemma leb_numbers (a b : float) :
  (a <=? b) = true -> is_nan a = false /\ is_nan b = false.
Proof.
  rewrite !is_nan_spec, leb_spec. unfold SFleb. intros H.
  split; intros E; rewrite E in H; simpl in H; try discriminate.
  destruct (Prim2SF a); discriminate.
Qed.

Lemma ltb_numbers (a b : float) :
  (a <? b) = true -> is_nan a = false /\ is_nan b = false.
Proof.
  rewrite !is_nan_spec, ltb_spec. unfold SFltb. intros H.
  split; intros E; rewrite E in H; simpl in H; try discriminate.
  destruct (Prim2SF a); discriminate.
Qed.

(** NaN propagates through an addition. *)
Lemma add_number_l (a b : float) : is_nan (a + b) = false -> is_nan a = false.
Proof.
  rewrite !is_nan_spec, add_spec. intros H E. apply H. rewrite E. reflexivity.
Qed.

(** Adding the number 0 to a number gives the same number. *)
Lemma add_zero_r (a : float) : is_nan a = false -> (a + 0 =? a) = true.
Proof.
  rewrite is_nan_spec, eqb_spec, add_spec. intros Ha.
  change (Prim2SF 0) with (S754_zero false).
  destruct (Prim2SF a) as [s| s | | s m e] eqn:E; try congruence.
  - destruct s; reflexivity.
  - destruct s; reflexivity.
  - unfold SF64add, SFadd, SFeqb. rewrite SFcompare_refl; [reflexivity | discriminate].
Qed.

(** *** The clipper on binary64 numbers *)

(** X29: on binary64 numbers, for every point and every viewport with
    [left <= right] and [top <= bottom]: the clips at the left and right
    edges bring an abscissa that is a number within [left, right]; the
    clips at the top and bottom edges bring a height that is a number
    within [top, bottom]; a point whose height is within [top, bottom]
    after the clips at the left and right edges is returned as these left
    it; and any other is moved to the top or to the bottom edge, at the
    abscissa that [interpolateX] computes. *)
Theorem limitPointToArea_binary64 (p p2 : Binary64.Point.t) (a : Binary64.Area) :
  let q := Binary64.limitRight (Binary64.limitLeft p p2 a) p2 a in
  let r := Binary64.limitPointToArea p p2 a in
  (Binary64.left a <=? Binary64.right a) = true ->
  (Binary64.top a <=? Binary64.bottom a) = true ->
  (is_nan (Binary64.Point.x p) = false ->
   (Binary64.left a <=? Binary64.Point.x q) = true
   /\ (Binary64.Point.x q <=? Binary64.right a) = true)
  /\ (is_nan (Binary64.Point.y q) = false ->
      (Binary64.top a <=? Binary64.Point.y r) = true
      /\ (Binary64.Point.y r <=? Binary64.bottom a) = true)
  /\ ((Binary64.top a <=? Binary64.Point.y q) = true ->
      (Binary64.Point.y q <=? Binary64.bottom a) = true -> r = q)
  /\ ((Binary64.Point.y q <? Binary64.top a) = true ->
      r = Binary64.Point.mk (Binary64.interpolateX (Binary64.top a) q p2)
                            (Binary64.top a))
  /\ ((Binary64.Point.y q <? Binary64.top a) = false ->
      (Binary64.bottom a <? Binary64.Point.y q) = true ->
      r = Binary64.Point.mk (Binary64.interpolateX (Binary64.bottom a) q p2)
                            (Binary64.bottom a)).
Proof.
  intros q r HLR HTB.
  destruct (leb_numbers _ _ HLR) as [HL HR].
  destruct (leb_numbers _ _ HTB) as [HT HB].
  split; [|split; [|split; [|split]]].
  - intros Hx. subst q. unfold Binary64.limitRight, Binary64.limitLeft.
    destruct (Binary64.Point.x p <? Binary64.left a) eqn:E1; cbn [Binary64.Point.x].
    + rewrite (leb_not_gtb _ _ HLR). cbn [Binary64.Point.x].
      split; [apply leb_refl; exact HL | exact HLR].
    + destruct (Binary64.right a <? Binary64.Point.x p) eqn:E2; cbn [Binary64.Point.x].
      * split; [exact HLR | apply leb_refl; exact HR].
      * split; apply not_ltb_geb; assumption.
  - intros Hy. subst r. unfold Binary64.limitPointToArea. fold q.
    unfold Binary64.limitBottom, Binary64.limitTop.
    destruct (Binary64.Point.y q <? Binary64.top a) eqn:E1; cbn [Binary64.Point.y].
    + rewrite (leb_not_gtb _ _ HTB). cbn [Binary64.Point.y].
      split; [apply leb_refl; exact HT | exact HTB].
    + destruct (Binary64.bottom a <? Binary64.Point.y q) eqn:E2; cbn [Binary64.Point.y].
      * split; [exact HTB | apply leb_refl; exact HB].
      * split; apply not_ltb_geb; assumption.
  - intros H1 H2. subst r. unfold Binary64.limitPointToArea. fold q.
    unfold Binary64.limitBottom, Binary64.limitTop.
    rewrite (leb_not_gtb _ _ H1). rewrite (leb_not_gtb _ _ H2). reflexivity.
  - intros H1. subst r. unfold Binary64.limitPointToArea. fold q.
    unfold Binary64.limitBottom, Binary64.limitTop.
    rewrite H1. cbn [Binary64.Point.y]. rewrite (leb_not_gtb _ _ HTB). reflexivity.
  - intros H1 H2. subst r. unfold Binary64.limitPointToArea. fold q.
    unfold Binary64.limitBottom, Binary64.limitTop.
    rewrite H1, H2. reflexivity.
Qed.

(** The start point of the line from (0, -50) to (156, 28) in the viewport
    [0, 100] x [0, 100]. *)
Lemma limitPointToArea_binary64_witness :
  let a := Binary64.mkArea 0 100 100 0 in
  let p := Binary64.Point.mk 0 (-50) in
  let p2 := Binary64.Point.mk 156 28 in
  let q := Binary64.limitRight (Binary64.limitLeft p p2 a) p2 a in
  let r := Binary64.limitPointToArea p p2 a in
  ((Binary64.left a <=? Binary64.right a) = true
   /\ (Binary64.top a <=? Binary64.bottom a) = true
   /\ is_nan (Binary64.Point.y q) = false)
  /\ (Binary64.top a <=? Binary64.Point.y r) = true
  /\ (Binary64.Point.y r <=? Binary64.bottom a) = true.
Proof.
  intros a p p2 q r.
  assert (H : (Binary64.left a <=? Binary64.right a) = true
              /\ (Binary64.top a <=? Binary64.bottom a) = true
              /\ is_nan (Binary64.Point.y q) = false)
    by (repeat split; vm_compute; reflexivity).
  split; [exact H|].
  destruct H as (H1 & H2 & H3).
  exact (proj1 (proj2 (limitPointToArea_binary64 p p2 a H1 H2)) H3).
Defined.

(** *** The label placer on binary64 numbers *)

(** A coordinate that is strictly clear of both edges, as the code
    evaluates the two tests, is returned as it is. *)
Lemma adjustLabelCoordinate_clear (c : float) (sizes : Binary64.LabelSizes.t) :
  let size := Binary64.LabelSizes.size sizes in
  let min := Binary64.LabelSizes.min sizes in
  let max := Binary64.LabelSizes.max sizes in
  let padding := Binary64.LabelSizes.padding sizes in
  (size <=? max - min) = true ->
  (min <? c - padding - size / 2) = true ->
  (c + padding + size / 2 <? max) = true ->
  Binary64.adjustLabelCoordinate c sizes = c.
Proof.
  intros size min max padding Hfit Hlo Hhi.
  unfold Binary64.adjustLabelCoordinate. cbv zeta.
  fold size min max padding.
  rewrite (leb_not_gtb _ _ Hfit), (ltb_not_geb _ _ Hlo), (ltb_not_geb _ _ Hhi).
  reflexivity.
Qed.

(** C8 (as amended): on binary64 numbers, for a label at the position
    "center" without offsets whose rotated footprint fits in the viewport,
    when the point of the line at [t = 0.5], as [pointInLine] computes it,
    [(x + 0.5 * (x2 - x), y + 0.5 * (y2 - y))], is strictly clear of every
    edge of the viewport, as [adjustLabelCoordinate] evaluates the two
    tests on each axis, the anchor of the label is that point: the code
    returns its coordinates plus the offset 0, which are the same numbers.
    (That point is the midpoint [((x + x2) / 2, (y + y2) / 2)] up to
    rounding only.) *)
Theorem centered_label_at_interpolation
    (PI : float) (Math_cos Math_sin : float -> float)
    (Math_atan2 : float -> float -> float) (toRadians : float -> float)
    (line : Binary64.LineAnnotation) (width height : float) (area : Binary64.Area) :
  let lbl := Binary64.label (Binary64.options line) in
  let c := Binary64.coords line in
  let rect := Binary64.calculateLabelPosition PI Math_cos Math_sin Math_atan2
                toRadians line width height area in
  let size := Binary64.rotatedSize Math_cos Math_sin width height
                (Binary64.LabelRect.rotation rect) in
  let pt := Binary64.pointInLine
              (Binary64.Point.mk (Binary64.x c) (Binary64.y c))
              (Binary64.Point.mk (Binary64.x2 c) (Binary64.y2 c)) 0.5 in
  Binary64.position lbl = "center"%string ->
  Binary64.xAdjust lbl = 0 -> Binary64.yAdjust lbl = 0 ->
  (Binary64.Size.w size <=? Binary64.right area - Binary64.left area) = true ->
  (Binary64.Size.h size <=? Binary64.bottom area - Binary64.top area) = true ->
  (Binary64.left area
   <? Binary64.Point.x pt - Binary64.xPadding lbl - Binary64.Size.w size / 2) = true ->
  (Binary64.Point.x pt + Binary64.xPadding lbl + Binary64.Size.w size / 2
   <? Binary64.right area) = true ->
  (Binary64.top area
   <? Binary64.Point.y pt - Binary64.yPadding lbl - Binary64.Size.h size / 2) = true ->
  (Binary64.Point.y pt + Binary64.yPadding lbl + Binary64.Size.h size / 2
   <? Binary64.bottom area) = true ->
  Binary64.LabelRect.x rect = Binary64.Point.x pt + 0
  /\ Binary64.LabelRect.y rect = Binary64.Point.y pt + 0
  /\ (Binary64.LabelRect.x rect =? Binary64.Point.x pt) = true
  /\ (Binary64.LabelRect.y rect =? Binary64.Point.y pt) = true.
Proof.
  intros lbl c rect size pt Hpos Hxa Hya Hw Hh HxL HxR HyT HyB.
  assert (Ex : Binary64.LabelRect.x rect = Binary64.Point.x pt + 0).
  { subst rect. unfold Binary64.calculateLabelPosition. cbv zeta.
    cbn [Binary64.LabelRect.x]. fold lbl c. rewrite Hpos, Hxa.
    change (Binary64.calculateT line "center" _ area) with 0.5.
    fold pt. f_equal. apply adjustLabelCoordinate_clear; assumption. }
  assert (Ey : Binary64.LabelRect.y rect = Binary64.Point.y pt + 0).
  { subst rect. unfold Binary64.calculateLabelPosition. cbv zeta.
    cbn [Binary64.LabelRect.y]. fold lbl c. rewrite Hpos, Hya.
    change (Binary64.calculateT line "center" _ area) with 0.5.
    fold pt. f_equal. apply adjustLabelCoordinate_clear; assumption. }
  split; [exact Ex|]. split; [exact Ey|]. rewrite Ex, Ey.
  split; apply add_zero_r.
  - destruct (ltb_numbers _ _ HxR) as [H _].
    apply add_number_l in H. apply add_number_l in H. exact H.
  - destruct (ltb_numbers _ _ HyB) as [H _].
    apply add_number_l in H. apply add_number_l in H. exact H.
Qed.

(** The line from (30.2, 50) to (62.5, 50) in the viewport
    [0, 100] x [0, 100], with a label of 40 x 20 that is not rotated: the
    cosine of its rotation is 1 and the sine is 0. *)
Lemma centered_label_at_interpolation_witness :
  let lbl := Binary64.mkLabel 0 0 6 6 "center" (Binary64.RotationDegrees 0) in
  let line := Binary64.mkLine (Binary64.mkCoords 30.2 50 62.5 50) (Binary64.mkOptions lbl) in
  let area := Binary64.mkArea 0 100 100 0 in
  let rect := Binary64.calculateLabelPosition 3.141592653589793
                (fun _ => 1) (fun _ => 0) (fun _ _ => 0)
                (fun d => d * (3.141592653589793 / 180)) line 40 20 area in
  let px := 30.2 + 0.5 * (62.5 - 30.2) in
  ((40 <=? 100 - 0) = true /\ (0 <? px - 6 - 40 / 2) = true
   /\ (px + 6 + 40 / 2 <? 100) = true)
  /\ (Binary64.LabelRect.x rect =? px) = true
  /\ (Binary64.LabelRect.y rect =? 50) = true.
Proof.
  intros lbl line area rect px.
  assert (H : (40 <=? 100 - 0) = true /\ (0 <? px - 6 - 40 / 2) = true
              /\ (px + 6 + 40 / 2 <? 100) = true)
    by (repeat split; vm_compute; reflexivity).
  split; [exact H|].
  destruct H as (H1 & H2 & H3).
  destruct (centered_label_at_interpolation 3.141592653589793
              (fun _ => 1) (fun _ => 0) (fun _ _ => 0)
              (fun d => d * (3.141592653589793 / 180)) line 40 20 area
              eq_refl eq_refl eq_refl H1 eq_refl H2 H3 eq_refl eq_refl)
    as (_ & _ & Hx & Hy).
  split; [exact Hx | exact Hy].
Defined.

(** On that line the anchor is not the midpoint: the footprint fits, the
    midpoint (46.35, 50) keeps the padding and half the footprint from
    every edge, and the anchor is at the abscissa 46.349999999999994, the
    value of [30.2 + 0.5 * (62.5 - 30.2)], which is not the abscissa
    [(30.2 + 62.5) / 2] of the midpoint. *)
Lemma centered_label_midpoint_counterexample :
  let lbl := Binary64.mkLabel 0 0 6 6 "center" (Binary64.RotationDegrees 0) in
  let line := Binary64.mkLine (Binary64.mkCoords 30.2 50 62.5 50) (Binary64.mkOptions lbl) in
  let area := Binary64.mkArea 0 100 100 0 in
  let rect := Binary64.calculateLabelPosition 3.141592653589793
                (fun _ => 1) (fun _ => 0) (fun _ _ => 0)
                (fun d => d * (3.141592653589793 / 180)) line 40 20 area in
  let size := Binary64.rotatedSize (fun _ => 1) (fun _ => 0) 40 20
                (Binary64.LabelRect.rotation rect) in
  let mx := (30.2 + 62.5) / 2 in
  let my := (50 + 50) / 2 in
  ((Binary64.Size.w size =? 40) = true /\ (Binary64.Size.h size =? 20) = true
   /\ (Binary64.Size.w size <=? 100 - 0) = true
   /\ (Binary64.Size.h size <=? 100 - 0) = true
   /\ (0 + (6 + Binary64.Size.w size / 2) <=? mx) = true
   /\ (mx <=? 100 - (6 + Binary64.Size.w size / 2)) = true
   /\ (0 + (6 + Binary64.Size.h size / 2) <=? my) = true
   /\ (my <=? 100 - (6 + Binary64.Size.h size / 2)) = true)
  /\ (mx =? 46.35) = true
  /\ (Binary64.LabelRect.x rect =? 46.349999999999994) = true
  /\ (Binary64.LabelRect.x rect =? mx) = false.
Proof. vm_compute. repeat split. Qed.

(** *** Where a rounding moves a result *)

(** The segment from (0, -50) to (156, 28) passes through the corner
    (100, 0) of the viewport [0, 100] x [0, 100].  The clip at the top edge
    interpolates the abscissa 100.00000000000001 for its start point,
    right of the viewport; the height is the edge itself. *)
Example limitLineToArea_rounds_past_edge :
  let area := Binary64.mkArea 0 100 100 0 in
  let r := Binary64.Props.coords
             (Binary64.limitLineToArea (Binary64.Point.mk 0 (-50))
                                       (Binary64.Point.mk 156 28) area) in
  (Binary64.x r =? 100.00000000000001) = true
  /\ (Binary64.y r =? 0) = true
  /\ (Binary64.x r <=? Binary64.right area) = false
  /\ (Binary64.x2 r =? 100) = true /\ (Binary64.y2 r =? 0) = true.
Proof. vm_compute. repeat split. Qed.

(** The point (1, 1) is at the squared distance 2/5 of the line from
    (0, 0) to (3, 1), which is below the binary64 number 0.4; the code
    computes the squared distance 0.4000000000000001 and answers [false]. *)
Example intersects_rounds_above_epsilon :
  let this := Binary64.mkLine (Binary64.mkCoords 0 0 3 1)
                (Binary64.mkOptions
                   (Binary64.mkLabel 0 0 6 6 "center" (Binary64.RotationDegrees 0))) in
  Binary64.intersects this 1 1 0.4 = false
  /\ Binary64.intersects this 1 1 0.4000000000000002 = true.
Proof. vm_compute. split; reflexivity. Qed.

(** The midpoint of the line from (12.3, 45.6) to (78.9, 1.2) is out of
    range for the tolerance 1e-30, and in range for the tolerance 1e-20. *)
Example intersects_rounds_at_midpoint :
  let this := Binary64.mkLine (Binary64.mkCoords 12.3 45.6 78.9 1.2)
                (Binary64.mkOptions
                   (Binary64.mkLabel 0 0 6 6 "center" (Binary64.RotationDegrees 0))) in
  Binary64.intersects this ((12.3 + 78.9) / 2) ((45.6 + 1.2) / 2) 1e-30 = false
  /\ Binary64.intersects this ((12.3 + 78.9) / 2) ((45.6 + 1.2) / 2) 1e-20 = true.
Proof. vm_compute. split; reflexivity. Qed.

(** A coordinate for which the first test of [adjustLabelCoordinate]
    holds with equality is replaced by [min + padding + halfSize], the
    next binary64 number here. *)
Example adjustLabelCoordinate_rounds_at_equality :
  let sizes := Binary64.LabelSizes.mk 40 0 100 6.1 in
  (26.099999999999998 - 6.1 - 40 / 2 =? 0) = true
  /\ (Binary64.adjustLabelCoordinate 26.099999999999998 sizes =? 26.1) = true
  /\ (Binary64.adjustLabelCoordinate 26.099999999999998 sizes
      =? 26.099999999999998) = false.
Proof. vm_compute. repeat split. Qed.

End Binary64Facts.

(** * Examples *)

(** The viewport [0, 100] x [0, 100] and the line from (-10, 50) to
    (110, 50): the clipped line runs from (0, 50) to (100, 50). *)
Example clip_horizontal :
  Coords_eqv
    (Props.coords
       (limitLineToArea (Point.mk (int (-10)) (int 50)) (Point.mk (int 110) (int 50))
                        (mkArea (int 0) (int 100) (int 100) (int 0))))
    (mkCoords (int 0) (int 50) (int 100) (int 50)).
Proof. vm_compute. repeat split. Qed.

(** A scale that is not resolved gives NaN coordinates, and the overlap
    test accepts them. *)
Example unresolved_value_is_inside :
  let o := {| borderWidth := int 2; label := defaultLabel;
              value := Undefined; endValue := Undefined;
              scaleID := Some "x"%string;
              xScaleID := Some "x"%string; xMin := Undefined; xMax := Undefined;
              yScaleID := Some "y"%string; yMin := Undefined; yMax := Undefined |} in
  rawCoords pixelOrFallback sampleChart o = mkCoords NaN (int 0) NaN (int 100)
  /\ isLineInArea (rawCoords pixelOrFallback sampleChart o)
                  (chartArea sampleChart) = true.
Proof. vm_compute. split; reflexivity. Qed.

(** A point at distance 1 of the segment is in range for epsilon 2 and out
    of range for epsilon 1. *)
Example intersects_strict :
  let this := mkLine (mkCoords (int 0) (int 0) (int 2) (int 0)) defaultOptions in
  intersects this (int 1) (int 1) (int 2) = true
  /\ intersects this (int 1) (int 1) (int 1) = false.
Proof. vm_compute. split; reflexivity. Qed.

(** * Further properties *)

(** ** The clipper *)

(** The clipped point is a point of the segment, between the point it
    comes from and the point of the segment that lies in the viewport. *)
Lemma limitPointToArea_on_segment (a1 b1 a2 b2 s L R T B : Q) :
  0 <= s -> s <= 1 ->
  L <= a1 + s * (a2 - a1) <= R ->
  T <= b1 + s * (b2 - b1) <= B ->
  exists tau pa pb,
    limitPointToArea (Point.mk (Fin a1) (Fin b1)) (Point.mk (Fin a2) (Fin b2))
                     (mkArea (Fin T) (Fin R) (Fin B) (Fin L))
    = Point.mk (Fin pa) (Fin pb)
    /\ onPath a1 b1 a2 b2 s tau pa pb.
Proof.
  intros Hs0 Hs1 [HL HR] [HT HB]. unfold limitPointToArea.
  destruct (limitLeft_path a1 b1 a2 b2 s L R T B Hs1 HL 0 a1 b1)
    as (t1 & x1 & y1 & E1 & P1 & L1).
  { repeat split; lra. }
  rewrite E1.
  destruct (limitRight_path a1 b1 a2 b2 s L R T B Hs1 HL HR t1 x1 y1 P1 L1)
    as (t2 & x2 & y2 & E2 & P2 & LR2).
  rewrite E2.
  destruct (limitTop_path a1 b1 a2 b2 s L R T B Hs1 HL HR HT t2 x2 y2 P2 LR2)
    as (t3 & x3 & y3 & E3 & P3 & LR3 & T3).
  rewrite E3.
  destruct (limitBottom_path a1 b1 a2 b2 s L R T B Hs1 HL HR HT HB
              t3 x3 y3 P3 LR3 T3)
    as (t4 & x4 & y4 & E4 & P4 & LR4 & TB4).
  rewrite E4.
  exists t4, x4, y4. split; [reflexivity | exact P4].
Qed.

Ltac qsolve := repeat (qtest; try (exfalso; lra); cbn -[Qabs Qle_bool Qeq_bool Num.Qltb]).

(** X2: a horizontal line that crosses the viewport from the left of it to
    the right of it is clipped to the left and right edges, at its own
    height; a vertical line that crosses it from above to below likewise
    to the top and bottom edges. *)
Theorem limitLineToArea_axis_parallel (a1 a2 c L R T B : Q) :
  L <= R -> T <= B ->
  let area := mkArea (Fin T) (Fin R) (Fin B) (Fin L) in
  (a1 < L -> R < a2 -> T <= c <= B ->
   let r := limitLineToArea (Point.mk (Fin a1) (Fin c)) (Point.mk (Fin a2) (Fin c)) area in
   Coords_eqv (Props.coords r) (mkCoords (Fin L) (Fin c) (Fin R) (Fin c))
   /\ (Props.width r ~= Fin (R - L))%js /\ (Props.height r ~= Fin 0)%js)
  /\ (a1 < T -> B < a2 -> L <= c <= R ->
      let r := limitLineToArea (Point.mk (Fin c) (Fin a1)) (Point.mk (Fin c) (Fin a2)) area in
      Coords_eqv (Props.coords r) (mkCoords (Fin c) (Fin T) (Fin c) (Fin B))
      /\ (Props.width r ~= Fin 0)%js /\ (Props.height r ~= Fin (B - T))%js).
Proof.
  intros HLR HTB area. split.
  - intros H1 H2 [Hc1 Hc2] r. subst r area.
    unfold limitLineToArea, limitPointToArea, limitBottom, limitTop,
      limitRight, limitLeft, interpolateX, interpolateY, pointInLine,
      Coords_eqv, Num.gt.
    cbn -[Qabs Qle_bool Qeq_bool Num.Qltb].
    qsolve.
    split; [repeat split; ring|]. split.
    + apply Qabs_pos. lra.
    + match goal with |- Qabs ?e == 0 =>
        assert (E : e == 0) by ring; rewrite E; reflexivity end.
  - intros H1 H2 [Hc1 Hc2] r. subst r area.
    unfold limitLineToArea, limitPointToArea, limitBottom, limitTop,
      limitRight, limitLeft, interpolateX, interpolateY, pointInLine,
      Coords_eqv, Num.gt.
    cbn -[Qabs Qle_bool Qeq_bool Num.Qltb].
    qsolve.
    split; [repeat split; ring|]. split.
    + match goal with |- Qabs ?e == 0 =>
        assert (E : e == 0) by ring; rewrite E; reflexivity end.
    + apply Qabs_pos. lra.
Qed.

Lemma limitLineToArea_axis_parallel_witness :
  let area := mkArea (int 0) (int 100) (int 100) (int 0) in
  let r := limitLineToArea (Point.mk (int (-10)) (int 50))
                           (Point.mk (int 110) (int 50)) area in
  (0 <= 100 /\ -10 < 0 /\ 100 < 110 /\ 0 <= 50 <= 100)
  /\ Coords_eqv (Props.coords r) (mkCoords (int 0) (int 50) (int 100) (int 50)).
Proof.
  intros area r.
  assert (H : 0 <= 100 /\ -10 < 0 /\ 100 < 110 /\ 0 <= 50 <= 100)
    by (repeat split; discriminate).
  split; [exact H|].
  destruct H as (H1 & H2 & H3 & H4).
  destruct (limitLineToArea_axis_parallel (-10) 110 50 0 100 0 100 H1 H1) as [W _].
  exact (proj1 (W H2 H3 H4)).
Defined.

Lemma abs_sub_swap (a b : num) : (Num.abs (a - b) ~= Num.abs (b - a))%js.
Proof.
  destruct a, b; simpl; trivial.
  change (Qabs (q - q0) == Qabs (q0 - q)). rewrite Qabs_Qminus. reflexivity.
Qed.

(** X3: the overlap test does not depend on the direction of the line, and
    clipping the reversed line gives the reversed clipped line, with the
    same width and height. *)
Theorem limitLineToArea_reversed (p1 p2 : Point.t) (area : Area) :
  let l := mkCoords (Point.x p1) (Point.y p1) (Point.x p2) (Point.y p2) in
  let l' := mkCoords (Point.x p2) (Point.y p2) (Point.x p1) (Point.y p1) in
  let r := limitLineToArea p1 p2 area in
  let r' := limitLineToArea p2 p1 area in
  isLineInArea l' area = isLineInArea l area
  /\ Props.coords r'
     = mkCoords (x2 (Props.coords r)) (y2 (Props.coords r))
                (x (Props.coords r)) (y (Props.coords r))
  /\ (Props.width r' ~= Props.width r)%js
  /\ (Props.height r' ~= Props.height r)%js.
Proof.
  intros l l' r r'. split; [|split; [reflexivity|split]].
  - unfold isLineInArea; simpl. f_equal.
    rewrite (andb_comm (Point.x p2 <? left area)%js),
      (andb_comm (Point.x p2 >? right area)%js),
      (andb_comm (Point.y p2 <? top area)%js),
      (andb_comm (Point.y p2 >? bottom area)%js).
    reflexivity.
  - apply abs_sub_swap.
  - apply abs_sub_swap.
Qed.

(** ** The resolver *)

Lemma lt_irrefl (a : num) : Num.lt a a = false.
Proof.
  destruct a; simpl; trivial. apply Qltb_ge. lra.
Qed.

Lemma le_refl_of_le (a b : num) : Num.le a b = true -> Num.le a a = true /\ Num.le b b = true.
Proof.
  destruct a, b; simpl; try discriminate; intros _; split; trivial;
    apply Qle_bool_iff; lra.
Qed.

(** X5: when none of the scale identifiers of the options names a scale of
    the chart, the line is the diagonal of the viewport, from its top left
    corner to its bottom right corner. *)
Theorem resolveElementProperties_without_scales
    (scaleValue : Scale -> Value -> num -> num)
    (chart : Chart) (options : Options) :
  let area := chartArea chart in
  scaleOf chart (scaleID options) = None ->
  scaleOf chart (xScaleID options) = None ->
  scaleOf chart (yScaleID options) = None ->
  (left area <=? right area)%js = true ->
  (top area <=? bottom area)%js = true ->
  Props.coords (resolveElementProperties scaleValue chart options)
  = mkCoords (left area) (top area) (right area) (bottom area).
Proof.
  intros area H0 Hx Hy Hlr Htb.
  assert (Eraw : rawCoords scaleValue chart options
                 = mkCoords (left area) (top area) (right area) (bottom area)).
  { unfold rawCoords. cbv zeta. rewrite H0, Hx, Hy. reflexivity. }
  destruct (le_refl_of_le _ _ Hlr) as [Hll Hrr].
  destruct (le_refl_of_le _ _ Htb) as [Htt Hbb].
  unfold resolveElementProperties. cbv zeta. rewrite Eraw. fold area.
  cbn [x y x2 y2].
  assert (Ein : isLineInArea (mkCoords (left area) (top area) (right area) (bottom area))
                             area = true).
  { unfold isLineInArea, Num.gt. cbn [x y x2 y2].
    rewrite !lt_irrefl, !andb_false_r. rewrite andb_false_l. reflexivity. }
  rewrite Ein. unfold limitLineToArea. cbv zeta. cbn [Props.coords].
  rewrite !limitPointToArea_inside; [reflexivity| |];
    unfold inArea; cbn [Point.x Point.y];
    rewrite ?Hll, ?Hrr, ?Htt, ?Hbb, ?Hlr, ?Htb; reflexivity.
Qed.

Lemma resolveElementProperties_without_scales_witness :
  let chart := {| scales := ∅; chartArea := mkArea (int 0) (int 100) (int 80) (int 20) |} in
  ((int 20 <=? int 100)%js = true /\ (int 0 <=? int 80)%js = true)
  /\ Props.coords (resolveElementProperties pixelOrFallback chart defaultOptions)
     = mkCoords (int 20) (int 0) (int 100) (int 80).
Proof.
  intros chart.
  assert (H : (int 20 <=? int 100)%js = true /\ (int 0 <=? int 80)%js = true)
    by (split; reflexivity).
  split; [exact H|].
  exact (resolveElementProperties_without_scales pixelOrFallback chart
           defaultOptions eq_refl eq_refl eq_refl (proj1 H) (proj2 H)).
Defined.

(** X6: with a [scaleID] that names a scale, the line spans the viewport
    across that scale: from top to bottom at the two pixels of a
    horizontal scale, from left to right at the two pixels of a vertical
    one, when these pixels lie in the viewport. *)
Theorem resolveElementProperties_spans_viewport
    (scaleValue : Scale -> Value -> num -> num)
    (chart : Chart) (options : Options) (scale : Scale) (v v' L R T B : Q) :
  scaleOf chart (scaleID options) = Some scale ->
  chartArea chart = mkArea (Fin T) (Fin R) (Fin B) (Fin L) ->
  scaleValue scale (value options) NaN = Fin v ->
  scaleValue scale (endValue options) (Fin v) = Fin v' ->
  L <= R -> T <= B ->
  let r := resolveElementProperties scaleValue chart options in
  (isHorizontal scale = true -> L <= v <= R -> L <= v' <= R ->
   Props.coords r = mkCoords (Fin v) (Fin T) (Fin v') (Fin B))
  /\ (isHorizontal scale = false -> T <= v <= B -> T <= v' <= B ->
      Props.coords r = mkCoords (Fin L) (Fin v) (Fin R) (Fin v')).
Proof.
  intros Hs Ha Hv Hv' HLR HTB r. subst r.
  unfold resolveElementProperties, rawCoords. cbv zeta.
  rewrite Hs, Ha, Hv, Hv'. cbn [top right bottom left].
  split; intros Hh [H1 H2] [H3 H4]; rewrite Hh.
  - assert (Ein : isLineInArea (mkCoords (Fin v) (Fin T) (Fin v') (Fin B))
                               (mkArea (Fin T) (Fin R) (Fin B) (Fin L)) = true).
    { unfold isLineInArea, Num.gt; simpl. qsolve. reflexivity. }
    rewrite Ein. unfold limitLineToArea. cbv zeta. cbn [Props.coords x y x2 y2].
    rewrite !limitPointToArea_inside; [reflexivity| |];
      apply inArea_fin; repeat split; lra.
  - assert (Ein : isLineInArea (mkCoords (Fin L) (Fin v) (Fin R) (Fin v'))
                               (mkArea (Fin T) (Fin R) (Fin B) (Fin L)) = true).
    { unfold isLineInArea, Num.gt; simpl. qsolve. reflexivity. }
    rewrite Ein. unfold limitLineToArea. cbv zeta. cbn [Props.coords x y x2 y2].
    rewrite !limitPointToArea_inside; [reflexivity| |];
      apply inArea_fin; repeat split; lra.
Qed.

(** A point that none of the four tests of the clipper catches is
    returned as it is. *)
Lemma limitPointToArea_fixed (p p2 : Point.t) (area : Area) :
  (Point.x p <? left area)%js = false ->
  (Point.x p >? right area)%js = false ->
  (Point.y p <? top area)%js = false ->
  (Point.y p >? bottom area)%js = false ->
  limitPointToArea p p2 area = p.
Proof.
  intros Hl Hr Ht Hb. unfold limitPointToArea.
  assert (E1 : limitLeft p p2 area = p) by (unfold limitLeft; now rewrite Hl).
  rewrite E1.
  assert (E2 : limitRight p p2 area = p) by (unfold limitRight; now rewrite Hr).
  rewrite E2.
  assert (E3 : limitTop p p2 area = p) by (unfold limitTop; now rewrite Ht).
  rewrite E3.
  unfold limitBottom. now rewrite Hb.
Qed.

Lemma resolveElementProperties_spans_viewport_witness :
  let o := {| borderWidth := int 2; label := defaultLabel;
              value := Number (int 30); endValue := Undefined;
              scaleID := Some "x"%string;
              xScaleID := Some "x"%string; xMin := Undefined; xMax := Undefined;
              yScaleID := Some "y"%string; yMin := Undefined; yMax := Undefined |} in
  (0 <= 100 /\ 0 <= 30 <= 100)
  /\ Props.coords (resolveElementProperties pixelOrFallback sampleChart o)
     = mkCoords (Fin 30) (Fin 0) (Fin 30) (Fin 100).
Proof.
  intros o.
  assert (H : 0 <= 100 /\ 0 <= 30 <= 100) by (repeat split; discriminate).
  split; [exact H|].
  destruct H as [H1 H2].
  destruct (resolveElementProperties_spans_viewport pixelOrFallback sampleChart o
              (identityScale true) 30 30 0 100 0 100
              eq_refl eq_refl eq_refl eq_refl H1 H1) as [W _].
  exact (W eq_refl H2 H2).
Defined.

(** X7: a value that the scale named by [scaleID] does not resolve gives
    NaN coordinates along that scale; the overlap test accepts them and the
    clipper returns them as they are, with a NaN extent. *)
Theorem resolveElementProperties_unresolved
    (scaleValue : Scale -> Value -> num -> num)
    (chart : Chart) (options : Options) (scale : Scale) :
  let area := chartArea chart in
  scaleOf chart (scaleID options) = Some scale ->
  scaleValue scale (value options) NaN = NaN ->
  scaleValue scale (endValue options) NaN = NaN ->
  (left area <=? right area)%js = true ->
  (top area <=? bottom area)%js = true ->
  let r := resolveElementProperties scaleValue chart options in
  (isHorizontal scale = true ->
   Props.coords r = mkCoords NaN (top area) NaN (bottom area)
   /\ Props.width r = NaN)
  /\ (isHorizontal scale = false ->
      Props.coords r = mkCoords (left area) NaN (right area) NaN
      /\ Props.height r = NaN)
  /\ isLineInArea (rawCoords scaleValue chart options) area = true.
Proof.
  intros area Hs Hv Hv' Hlr Htb r. subst r.
  destruct (le_refl_of_le _ _ Hlr) as [Hll Hrr].
  destruct (le_refl_of_le _ _ Htb) as [Htt Hbb].
  apply le_not_gt in Hlr as Hlr', Htb as Htb', Hll as Hll', Hrr as Hrr',
    Htt as Htt', Hbb as Hbb'.
  assert (Hacc : isLineInArea (rawCoords scaleValue chart options) area = true).
  { unfold rawCoords. cbv zeta. rewrite Hs, Hv, Hv'. fold area.
    destruct (isHorizontal scale); unfold isLineInArea, Num.gt; cbn [x y x2 y2].
    - rewrite !lt_nan_r, Htt', Hbb'. cbn [Num.lt]. rewrite Htb'. reflexivity.
    - rewrite !lt_nan_r, Hll', Hrr'. cbn [Num.lt]. rewrite Hlr'. reflexivity. }
  split; [|split; [|exact Hacc]]; clear Hacc;
    unfold resolveElementProperties, rawCoords; cbv zeta;
    rewrite Hs, Hv, Hv'; fold area;
    intros Hh; rewrite Hh.
  - assert (Ein : isLineInArea (mkCoords NaN (top area) NaN (bottom area)) area = true).
    { unfold isLineInArea, Num.gt. cbn [x y x2 y2].
      rewrite !lt_nan_r, Htt', Hbb'. cbn [Num.lt].
      rewrite Htb'. reflexivity. }
    rewrite Ein. unfold limitLineToArea. cbv zeta.
    cbn [Props.coords Props.width x y x2 y2].
    rewrite !limitPointToArea_fixed; unfold Num.gt; cbn [Point.x Point.y];
      rewrite ?lt_nan_r; try reflexivity; try assumption.
    split; reflexivity.
  - assert (Ein : isLineInArea (mkCoords (left area) NaN (right area) NaN) area = true).
    { unfold isLineInArea, Num.gt. cbn [x y x2 y2].
      rewrite !lt_nan_r, Hll', Hrr'. cbn [Num.lt].
      rewrite Hlr'. reflexivity. }
    rewrite Ein. unfold limitLineToArea. cbv zeta.
    cbn [Props.coords Props.height x y x2 y2].
    rewrite !limitPointToArea_fixed; unfold Num.gt; cbn [Point.x Point.y];
      rewrite ?lt_nan_r; try reflexivity; try assumption.
    split; reflexivity.
Qed.

(** The chart of the examples with a scale that resolves no value. *)
Lemma resolveElementProperties_unresolved_witness :
  let o := {| borderWidth := int 2; label := defaultLabel;
              value := Undefined; endValue := Undefined;
              scaleID := Some "x"%string;
              xScaleID := Some "x"%string; xMin := Undefined; xMax := Undefined;
              yScaleID := Some "y"%string; yMin := Undefined; yMax := Undefined |} in
  let r := resolveElementProperties pixelOrFallback sampleChart o in
  ((int 0 <=? int 100)%js = true)
  /\ Props.coords r = mkCoords NaN (int 0) NaN (int 100) /\ Props.width r = NaN.
Proof.
  intros o r.
  assert (H : (int 0 <=? int 100)%js = true) by reflexivity.
  split; [exact H|].
  destruct (resolveElementProperties_unresolved pixelOrFallback sampleChart o
              (identityScale true) eq_refl eq_refl eq_refl H H) as [W _].
  exact (W eq_refl).
Defined.

(** ** The hit test *)

Lemma lt_le_trans (a b c : num) :
  Num.lt a b = true -> Num.le b c = true -> Num.lt a c = true.
Proof.
  destruct a, b, c; simpl; try congruence.
  rewrite !Qltb_lt, Qle_bool_iff. intros H1 H2. lra.
Qed.

(** X8: a hit stays a hit when the tolerance grows. *)
Theorem intersects_monotone (this : LineAnnotation) (qx qy epsilon epsilon' : num) :
  intersects this qx qy epsilon = true ->
  (epsilon <=? epsilon')%js = true ->
  intersects this qx qy epsilon' = true.
Proof.
  unfold intersects. destruct (coords this) as [x1 y1 x2' y2']. cbv zeta.
  apply lt_le_trans.
Qed.

Lemma intersects_monotone_witness :
  let this := mkLine (mkCoords (int 0) (int 0) (int 2) (int 0)) defaultOptions in
  (intersects this (int 1) (int 1) (int 2) = true /\ (int 2 <=? int 3)%js = true)
  /\ intersects this (int 1) (int 1) (int 3) = true.
Proof.
  intros this.
  assert (H : intersects this (int 1) (int 1) (int 2) = true
              /\ (int 2 <=? int 3)%js = true) by (split; reflexivity).
  split; [exact H|].
  exact (intersects_monotone this (int 1) (int 1) (int 2) (int 3) (proj1 H) (proj2 H)).
Defined.

(** X9: with a tolerance that is zero, negative or NaN nothing is hit,
    whatever the line and the point. *)
Theorem intersects_needs_positive_epsilon (this : LineAnnotation)
    (qx qy epsilon : num) :
  (epsilon <=? int 0)%js = true \/ epsilon = NaN ->
  intersects this qx qy epsilon = false.
Proof.
  intros H. unfold intersects. destruct (coords this) as [x1 y1 x2' y2'].
  cbv zeta. destruct H as [H| ->].
  - apply sqr_sum_not_below. exact H.
  - apply lt_nan_r.
Qed.

Lemma intersects_needs_positive_epsilon_witness :
  let this := mkLine (mkCoords (int 0) (int 0) (int 2) (int 0)) defaultOptions in
  (int 0 <=? int 0)%js = true
  /\ intersects this (int 1) (int 0) (int 0) = false.
Proof.
  intros this.
  assert (H : (int 0 <=? int 0)%js = true) by reflexivity.
  split; [exact H|].
  exact (intersects_needs_positive_epsilon this (int 1) (int 0) (int 0) (or_introl H)).
Defined.

(** X12: while the label was never drawn, is not enabled or has no
    content, no point is on the label and [inRange] is the hit test of the
    line, with the border width as tolerance, or 1 when the border width is
    zero or NaN. *)
Theorem inRange_without_label (rotated : Point.t -> Point.t -> num -> Point.t)
    (this : Element.t) (qx qy : num) :
  Element.labelRect this = None
  \/ LabelText.enabled (Element.text this) = false
  \/ contentTruthy (LabelText.content (Element.text this)) = false ->
  isOnLabel rotated this qx qy = false
  /\ inRange rotated this qx qy
     = intersects (Element.line this) qx qy
         (orNum (borderWidth (options (Element.line this))) (int 1)).
Proof.
  intros H.
  assert (E : isOnLabel rotated this qx qy = false).
  { unfold isOnLabel, labelIsVisible.
    destruct (Element.labelRect this) as [rect|]; [|reflexivity].
    destruct H as [H|[H|H]]; [discriminate| |]; rewrite H; cbn [andb negb];
      rewrite ?andb_false_r; reflexivity. }
  split; [exact E|]. unfold inRange. cbv zeta. rewrite E. apply orb_false_r.
Qed.

Lemma inRange_without_label_witness :
  let this := Element.mk (mkLine (mkCoords (int 0) (int 0) (int 2) (int 0)) defaultOptions)
                (LabelText.mk false ContentNull (int 12) Undefined Undefined "center")
                None in
  Element.labelRect this = None
  /\ inRange (fun p _ _ => p) this (int 1) (int 1) = true.
Proof.
  intros this.
  assert (H : Element.labelRect this = None) by reflexivity.
  split; [exact H|].
  rewrite (proj2 (inRange_without_label (fun p _ _ => p) this (int 1) (int 1)
                    (or_introl H))).
  reflexivity.
Defined.

(** X13: with a border width that is not negative, the start point of the
    line is in range, whatever the state of the label; a border width of
    zero or NaN counts as the tolerance 1. *)
Theorem inRange_start_point (rotated : Point.t -> Point.t -> num -> Point.t)
    (this : Element.t) :
  let c := coords (Element.line this) in
  finiteCoords c = true ->
  (borderWidth (options (Element.line this)) <? int 0)%js = false ->
  inRange rotated this (x c) (y c) = true.
Proof.
  intros c Hc Hbw. unfold inRange. cbv zeta. apply orb_true_iff. left.
  subst c.
  destruct (Element.line this) as [[[x1| | |] [y1| | |] [x2'| | |] [y2'| | |]] o];
    try discriminate.
  cbn [coords options x y] in *.
  rewrite intersects_start_point.
  unfold orNum, numTruthy.
  destruct (borderWidth o) as [bw| | |]; try reflexivity; try discriminate.
  cbn [Num.lt] in Hbw. apply Qltb_ge in Hbw.
  qtest; cbn [negb]; [reflexivity|].
  cbn [Num.lt]. apply Qltb_lt.
  destruct (Qlt_le_dec 0 bw) as [?|Hle]; [assumption|].
  exfalso. match goal with Hne : ~ bw == 0 |- _ => apply Hne end. lra.
Qed.

Lemma inRange_start_point_witness :
  let this := Element.mk (mkLine (mkCoords (int 0) (int 0) (int 2) (int 0))
                            {| borderWidth := int 0; label := defaultLabel;
                               value := Undefined; endValue := Undefined; scaleID := None;
                               xScaleID := None; xMin := Undefined; xMax := Undefined;
                               yScaleID := None; yMin := Undefined; yMax := Undefined |})
                (LabelText.mk false ContentNull (int 12) Undefined Undefined "center")
                None in
  (finiteCoords (coords (Element.line this)) = true
   /\ (borderWidth (options (Element.line this)) <? int 0)%js = false)
  /\ inRange (fun p _ _ => p) this (int 0) (int 0) = true.
Proof.
  intros this.
  assert (H : finiteCoords (coords (Element.line this)) = true
              /\ (borderWidth (options (Element.line this)) <? int 0)%js = false)
    by (split; reflexivity).
  split; [exact H|].
  exact (inRange_start_point (fun p _ _ => p) this (proj1 H) (proj2 H)).
Defined.

(** ** The label placer *)

(** X17: the horizontal position of the text of an array content stays
    within the label: for a padding between 0 and half the width it lies
    between [- width / 2] and [width / 2]; the alignments "start" and "end"
    give opposite positions, every other alignment gives 0. *)
Theorem calculateLabelXAlignment_within (l : Label) (t : LabelText.t) (w pad : Q) :
  xPadding l = Fin pad ->
  0 <= pad -> 2 * pad <= w ->
  exists r,
    calculateLabelXAlignment l t (Fin w) = Fin r
    /\ - w <= 2 * r <= w
    /\ (LabelText.textAlign t = "start"%string -> 2 * r == 2 * pad - w)
    /\ (LabelText.textAlign t = "end"%string -> 2 * r == w - 2 * pad).
Proof.
  intros Hp H0 Hw. pose proof (half_spec w) as Hh.
  unfold calculateLabelXAlignment. rewrite Hp. unfold int.
  cbn [Num.div Num.neg Num.add Num.sub].
  change (Qeq_bool (2 # 1) 0) with false. cbv iota. change (2 # 1) with 2.
  remember (w / 2) as hw eqn:Ehw. clear Ehw.
  destruct (String.eqb (LabelText.textAlign t) "start") eqn:Es;
    [|destruct (String.eqb (LabelText.textAlign t) "end") eqn:Ee].
  - apply String.eqb_eq in Es. eexists. split; [reflexivity|].
    split; [lra|]. split; [intros _; lra|].
    intros E. rewrite E in Es. discriminate.
  - apply String.eqb_eq in Ee. eexists. split; [reflexivity|].
    split; [lra|]. split; [|intros _; lra].
    intros E. rewrite E in Ee. discriminate.
  - exists 0. split; [reflexivity|]. split; [lra|].
    split; intros E; rewrite E in *; discriminate.
Qed.

Lemma calculateLabelXAlignment_within_witness :
  let t := LabelText.mk true (ContentArray ["a"; "bc"]%string) (int 12)
             Undefined Undefined "start" in
  (0 <= 6 /\ 2 * 6 <= 40)
  /\ exists r, calculateLabelXAlignment defaultLabel t (Fin 40) = Fin r
               /\ - 40 <= 2 * r <= 40.
Proof.
  intros t.
  assert (H : 0 <= 6 /\ 2 * 6 <= 40) by (split; discriminate).
  split; [exact H|].
  destruct (calculateLabelXAlignment_within defaultLabel t 40 6 eq_refl
              (proj1 H) (proj2 H)) as (r & E & B & _).
  exists r. split; [exact E | exact B].
Defined.

Lemma Qabs_combination (u v c s : Q) :
  Qabs (u * c + v * s) <= Qabs u * Qabs c + Qabs v * Qabs s.
Proof.
  rewrite <- !Qabs_Qmult. apply Qabs_triangle.
Qed.

(** X18: the rotated size is the bounding box of the rotated label: when
    the cosine and the sine are finite, every point [(u, v)] of the label
    centred at its anchor, [|u| <= width / 2] and [|v| <= height / 2], is
    sent by the rotation to a point within half the rotated width and half
    the rotated height of the anchor. *)
Theorem rotatedSize_bounds_rotated_label
    (Math_cos Math_sin : num -> num) (rot : num) (w h c s u v : Q) :
  Math_cos rot = Fin c -> Math_sin rot = Fin s ->
  2 * Qabs u <= Qabs w -> 2 * Qabs v <= Qabs h ->
  exists fw fh,
    rotatedSize Math_cos Math_sin (Fin w) (Fin h) rot = Size.mk (Fin fw) (Fin fh)
    /\ 2 * Qabs (u * c - v * s) <= fw
    /\ 2 * Qabs (u * s + v * c) <= fh.
Proof.
  intros Hc Hs Hu Hv. unfold rotatedSize. cbv zeta. rewrite Hc, Hs.
  cbn [Num.mul Num.abs Num.add]. eexists. eexists. split; [reflexivity|].
  pose proof (Qabs_combination u (- v) c s) as H1.
  pose proof (Qabs_combination u v s c) as H2.
  rewrite Qabs_opp in H1.
  assert (E : u * c + - v * s == u * c - v * s) by ring. rewrite E in H1.
  rewrite !Qabs_Qmult.
  pose proof (Qabs_nonneg c). pose proof (Qabs_nonneg s).
  pose proof (Qabs_nonneg u). pose proof (Qabs_nonneg v).
  split; nra.
Qed.

Lemma rotatedSize_bounds_rotated_label_witness :
  (2 * Qabs 20 <= Qabs 40 /\ 2 * Qabs 10 <= Qabs 20)
  /\ exists fw fh,
       rotatedSize (fun _ => Fin (3 # 5)) (fun _ => Fin (4 # 5)) (Fin 40) (Fin 20) (int 1)
       = Size.mk (Fin fw) (Fin fh)
       /\ 2 * Qabs (20 * (3 # 5) - 10 * (4 # 5)) <= fw.
Proof.
  assert (H : 2 * Qabs 20 <= Qabs 40 /\ 2 * Qabs 10 <= Qabs 20)
    by (split; discriminate).
  split; [exact H|].
  destruct (rotatedSize_bounds_rotated_label (fun _ => Fin (3 # 5)) (fun _ => Fin (4 # 5))
              (int 1) 40 20 (3 # 5) (4 # 5) 20 10 eq_refl eq_refl (proj1 H) (proj2 H))
    as (fw & fh & E & B & _).
  exists fw, fh. split; [exact E | exact B].
Defined.

(** ** Measuring the label *)

Section MeasureFacts.

Variable parseFloat : string -> num.
Variable measureText : string -> num.

(** Every width in the cache is the width that the host measures. *)
Let coherent (widthCache : gmap string num) : Prop :=
  forall k v, widthCache !! k = Some v -> v = measureText k.

Lemma measureLine_coherent (width : num) (widthCache : gmap string num)
    (text : string) :
  coherent widthCache ->
  exists cache',
    measureLine measureText (width, widthCache) text
    = (Num.max width (measureText text), cache')
    /\ coherent cache' /\ widthCache ⊆ cache' /\ is_Some (cache' !! text)
    /\ (is_Some (widthCache !! text) -> cache' = widthCache).
Proof.
  intros Hc. unfold measureLine.
  destruct (widthCache !! text) as [v|] eqn:E.
  - exists widthCache. cbv beta iota. rewrite E. cbn [default]. rewrite (Hc _ _ E).
    repeat split; auto; rewrite ?E; eauto.
  - exists (<[text := measureText text]> widthCache).
    cbv beta iota. rewrite lookup_insert_eq. cbn [default].
    split; [reflexivity|]. split; [|split; [|split]].
    + intros k v. destruct (decide (k = text)) as [->|Hne].
      * rewrite lookup_insert_eq. congruence.
      * rewrite lookup_insert_ne by congruence. apply Hc.
    + apply insert_subseteq. exact E.
    + eauto.
    + intros [v Hv]. congruence.
Qed.

Lemma measureLines_coherent (lines : list string) (width : num)
    (widthCache : gmap string num) :
  coherent widthCache ->
  exists cache',
    fold_left (measureLine measureText) lines (width, widthCache)
    = (fold_left (fun w t => Num.max w (measureText t)) lines width, cache')
    /\ coherent cache' /\ widthCache ⊆ cache'
    /\ (forall t, t ∈ lines -> is_Some (cache' !! t))
    /\ ((forall t, t ∈ lines -> is_Some (widthCache !! t)) -> cache' = widthCache).
Proof.
  revert width widthCache.
  induction lines as [|t lines IH]; intros width widthCache Hc.
  - exists widthCache. cbn [fold_left]. repeat split; auto.
    intros t Ht. inversion Ht.
  - cbn [fold_left].
    destruct (measureLine_coherent width widthCache t Hc)
      as (c1 & E1 & Hc1 & Hsub1 & Hin1 & Hsame1).
    rewrite E1.
    destruct (IH (Num.max width (measureText t)) c1 Hc1)
      as (c2 & E2 & Hc2 & Hsub2 & Hin2 & Hsame2).
    exists c2. split; [exact E2|]. split; [exact Hc2|].
    split; [etrans; eassumption|]. split.
    + intros t' Ht'. apply elem_of_cons in Ht'. destruct Ht' as [->|Ht'].
      * destruct Hin1 as [v Hv]. exists v.
        eapply lookup_weaken; eassumption.
      * apply Hin2. exact Ht'.
    + intros Hall.
      assert (Ec1 : c1 = widthCache) by (apply Hsame1, Hall; left).
      subst c1. apply Hsame2. intros t' Ht'. apply Hall. right. exact Ht'.
Qed.

(** What [measureLabel] does with a cache whose entries are the widths
    that the host measures. *)
Lemma measureLabel_coherent (widthCache : gmap string num)
    (label : Label) (text : LabelText.t) :
  coherent widthCache ->
  let r := measureLabel parseFloat measureText widthCache label text in
  r.1 = (measureLabel parseFloat measureText ∅ label text).1
  /\ coherent r.2
  /\ widthCache ⊆ r.2
  /\ (forall t, t ∈ contentLines (LabelText.content text) -> is_Some (r.2 !! t))
  /\ ((forall t, t ∈ contentLines (LabelText.content text) ->
                 is_Some (widthCache !! t)) -> r.2 = widthCache).
Proof.
  intros Hc r. subst r. unfold measureLabel.
  assert (Hempty : coherent ∅)
    by (intros k v Hk; rewrite lookup_empty in Hk; discriminate).
  destruct (LabelText.content text) as [|s|lines|nw nh] eqn:Econtent;
    try (destruct (measureLines_coherent (contentLines (LabelText.content text))
                     (int 0) widthCache Hc) as (c1 & E1 & Hc1 & Hs1 & Hi1 & Hsame1);
         destruct (measureLines_coherent (contentLines (LabelText.content text))
                     (int 0) ∅ Hempty) as (c0 & E0 & _);
         rewrite Econtent in *; rewrite E1, E0; cbn [fst snd];
         repeat split; assumption).
  cbn [fst snd contentLines]. repeat split; auto.
  intros t Ht. inversion Ht.
Qed.

(** X19: the cache of widths does not change what [measureLabel] answers:
    with a cache whose entries are the widths that the host measures, the
    size is the size computed with an empty cache; the cache returned still
    has that property, keeps every entry it had and has an entry for every
    line of the content. *)
Theorem measureLabel_cache_transparent (widthCache : gmap string num)
    (label : Label) (text : LabelText.t) :
  (forall k v, widthCache !! k = Some v -> v = measureText k) ->
  let r := measureLabel parseFloat measureText widthCache label text in
  r.1 = (measureLabel parseFloat measureText ∅ label text).1
  /\ (forall k v, r.2 !! k = Some v -> v = measureText k)
  /\ widthCache ⊆ r.2
  /\ (forall t, t ∈ contentLines (LabelText.content text) -> is_Some (r.2 !! t)).
Proof.
  intros Hc r.
  destruct (measureLabel_coherent widthCache label text Hc) as (E & H1 & H2 & H3 & _).
  repeat split; assumption.
Qed.

End MeasureFacts.

Lemma measureLabel_cache_transparent_witness :
  let text := LabelText.mk true (ContentArray ["a"; "bc"]%string) (int 12)
                Undefined Undefined "center" in
  let measure := fun s : string => int (Z.of_nat (String.length s)) in
  let cache : gmap string num := {[ "a"%string := int 1 ]} in
  (forall k v, cache !! k = Some v -> v = measure k)
  /\ (measureLabel (fun _ => NaN) measure cache defaultLabel text).1
     = (measureLabel (fun _ => NaN) measure ∅ defaultLabel text).1.
Proof.
  intros text measure cache.
  assert (H : forall k v, cache !! k = Some v -> v = measure k).
  { intros k v Hk. subst cache.
    apply lookup_singleton_Some in Hk. destruct Hk as [<- <-]. reflexivity. }
  split; [exact H|].
  exact (proj1 (measureLabel_cache_transparent (fun _ => NaN) measure cache
                  defaultLabel text H)).
Defined.

(** The widest of the lines, from the width [a] on. *)
Lemma widest_line (measureText : string -> num) (lines : list string) (a : Q) :
  (forall t, t ∈ lines -> Num.is_finite (measureText t) = true) ->
  exists m,
    fold_left (fun w t => Num.max w (measureText t)) lines (Fin a) = Fin m
    /\ a <= m
    /\ (forall t, t ∈ lines -> exists wt, measureText t = Fin wt /\ wt <= m)
    /\ (m = a \/ exists t, t ∈ lines /\ measureText t = Fin m).
Proof.
  revert a. induction lines as [|t lines IH]; intros a Hfin.
  - exists a. cbn [fold_left]. split; [reflexivity|]. split; [lra|].
    split; [|left; reflexivity]. intros t Ht. inversion Ht.
  - cbn [fold_left].
    destruct (finite_inv (measureText t)) as [wt Ewt]; [apply Hfin; left|].
    rewrite Ewt. cbn [Num.max Num.lt].
    assert (Hrest : forall t', t' ∈ lines -> Num.is_finite (measureText t') = true)
      by (intros t' Ht'; apply Hfin; right; exact Ht').
    qtest.
    + destruct (IH wt Hrest) as (m & E & Hle & Hall & Hatt).
      exists m. split; [exact E|]. split; [lra|]. split.
      * intros t' Ht'. apply elem_of_cons in Ht'. destruct Ht' as [->|Ht'].
        -- exists wt. split; [exact Ewt | exact Hle].
        -- apply Hall. exact Ht'.
      * right. destruct Hatt as [->|(t' & Ht' & Et')].
        -- exists t. split; [left | exact Ewt].
        -- exists t'. split; [right; exact Ht' | exact Et'].
    + destruct (IH a Hrest) as (m & E & Hle & Hall & Hatt).
      exists m. split; [exact E|]. split; [lra|]. split.
      * intros t' Ht'. apply elem_of_cons in Ht'. destruct Ht' as [->|Ht'].
        -- exists wt. split; [exact Ewt | lra].
        -- apply Hall. exact Ht'.
      * destruct Hatt as [->|(t' & Ht' & Et')]; [left; reflexivity|].
        right. exists t'. split; [right; exact Ht' | exact Et'].
Qed.

(** *** Any cache *)

Section MeasureAnyCache.

Variable measureText : string -> num.
Variable widthCache : gmap string num.

(** The width that [measureLabel] takes for a line: the entry of the
    cache if there is one, whatever the font it was measured with, and the
    width that the host measures otherwise. *)
Let used (k : string) : num := default (measureText k) (widthCache !! k).

Lemma measureLine_used (width : num) (cache : gmap string num) (text : string) :
  widthCache ⊆ cache ->
  measureLine measureText (width, cache) text = measureLine used (width, cache) text.
Proof.
  intros Hsub. unfold measureLine.
  destruct (cache !! text) as [v|] eqn:E; [reflexivity|].
  assert (E0 : widthCache !! text = None).
  { destruct (widthCache !! text) as [v|] eqn:E0; [|reflexivity].
    rewrite (lookup_weaken _ _ _ _ E0 Hsub) in E. discriminate. }
  unfold used. rewrite E0. reflexivity.
Qed.

Lemma measureLine_grows (mt : string -> num) (width : num) (cache : gmap string num)
    (text : string) :
  cache ⊆ (measureLine mt (width, cache) text).2.
Proof.
  unfold measureLine. destruct (cache !! text) as [v|] eqn:E; cbn [snd].
  - reflexivity.
  - apply insert_subseteq. exact E.
Qed.

Lemma measureLines_used (lines : list string) (width : num) (cache : gmap string num) :
  widthCache ⊆ cache ->
  fold_left (measureLine measureText) lines (width, cache)
  = fold_left (measureLine used) lines (width, cache).
Proof.
  revert width cache. induction lines as [|t lines IH]; intros width cache Hsub.
  - reflexivity.
  - cbn [fold_left]. rewrite (measureLine_used width cache t Hsub).
    pose proof (measureLine_grows used width cache t) as Hg.
    destruct (measureLine used (width, cache) t) as [w' c'] eqn:E.
    apply IH. etrans; [exact Hsub | exact Hg].
Qed.

End MeasureAnyCache.

(** With a cache that extends the given one, [measureLabel] proceeds as
    if the host measured, for every text of the given cache, the width
    recorded there. *)
Lemma measureLabel_used (parseFloat measureText : string -> num)
    (widthCache cache : gmap string num) (label : Label) (text : LabelText.t) :
  widthCache ⊆ cache ->
  measureLabel parseFloat measureText cache label text
  = measureLabel parseFloat
      (fun k => default (measureText k) (widthCache !! k)) cache label text.
Proof.
  intros Hsub. unfold measureLabel.
  destruct (LabelText.content text); try reflexivity;
    rewrite (measureLines_used measureText widthCache _ (int 0) cache Hsub);
    reflexivity.
Qed.

(** X20: measuring a label a second time, with the cache that the first
    measure returned, finds every line in the cache: the cache stays as it
    is and the size is the same, whatever the cache held before the first
    measure. *)
Theorem measureLabel_twice (parseFloat measureText : string -> num)
    (widthCache : gmap string num) (label : Label) (text : LabelText.t) :
  let r := measureLabel parseFloat measureText widthCache label text in
  measureLabel parseFloat measureText r.2 label text = r.
Proof.
  intros r.
  set (used := fun k : string => default (measureText k) (widthCache !! k)).
  assert (Hc : forall k v, widthCache !! k = Some v -> v = used k).
  { intros k v Hk. unfold used. rewrite Hk. reflexivity. }
  assert (Er : r = measureLabel parseFloat used widthCache label text).
  { subst r. apply measureLabel_used. reflexivity. }
  destruct (measureLabel_coherent parseFloat used widthCache label text Hc)
    as (E & Hc' & Hsub & Hin & _).
  rewrite <- Er in E, Hc', Hsub, Hin.
  destruct (measureLabel_coherent parseFloat used r.2 label text Hc')
    as (E' & _ & _ & _ & Hsame).
  rewrite (measureLabel_used parseFloat measureText widthCache r.2 label text Hsub).
  fold used. apply injective_projections; [congruence|].
  apply Hsame. exact Hin.
Qed.

(** X21: for an array content and any cache, the width of the label is
    the largest of the widths that the cache returned records for its
    lines, or 0 when they are all below 0, plus the padding on both sides.
    The cache keeps every entry it had, also for a line of the content,
    and records for every other line the width that the host measures:
    the width of a line that was in the cache is the cached one. *)
Theorem measureLabel_widest_line (parseFloat measureText : string -> num)
    (widthCache : gmap string num)
    (label : Label) (text : LabelText.t) (lines : list string) (xp : Q) :
  LabelText.content text = ContentArray lines ->
  xPadding label = Fin xp ->
  (forall t, t ∈ lines -> Num.is_finite (measureText t) = true) ->
  (forall t v, t ∈ lines -> widthCache !! t = Some v -> Num.is_finite v = true) ->
  let r := measureLabel parseFloat measureText widthCache label text in
  exists m,
    Size.w r.1 = Fin (m + 2 * xp)
    /\ 0 <= m
    /\ (forall t, t ∈ lines -> exists wt, r.2 !! t = Some (Fin wt) /\ wt <= m)
    /\ (m = 0 \/ exists t, t ∈ lines /\ r.2 !! t = Some (Fin m))
    /\ (forall t v, widthCache !! t = Some v -> r.2 !! t = Some v)
    /\ (forall t, t ∈ lines -> widthCache !! t = None ->
                  r.2 !! t = Some (measureText t)).
Proof.
  intros Hcontent Hxp Hfin Hcache r. subst r.
  set (used := fun k : string => default (measureText k) (widthCache !! k)).
  assert (Hused : forall t, t ∈ lines -> Num.is_finite (used t) = true).
  { intros t Ht. unfold used. destruct (widthCache !! t) as [v|] eqn:E; cbn [default].
    - exact (Hcache t v Ht E).
    - exact (Hfin t Ht). }
  unfold measureLabel. rewrite Hcontent. cbn [contentLines].
  rewrite (measureLines_used measureText widthCache lines (int 0) widthCache)
    by reflexivity.
  fold used.
  destruct (measureLines_coherent used lines (int 0) widthCache)
    as (c & E & Hc & Hsub & Hin & _).
  { intros k v Hk. unfold used. rewrite Hk. reflexivity. }
  rewrite E. cbn [fst snd Size.w].
  destruct (widest_line used lines 0 Hused) as (m & Em & Hm & Hall & Hatt).
  unfold int at 1. change (0 # 1) with 0. rewrite Em, Hxp.
  assert (Hrec : forall t, t ∈ lines -> c !! t = Some (used t)).
  { intros t Ht. destruct (Hin t Ht) as [v Hv]. rewrite Hv. f_equal. exact (Hc t v Hv). }
  exists m. split; [reflexivity|]. split; [exact Hm|]. split; [|split; [|split]].
  - intros t Ht. destruct (Hall t Ht) as (wt & Ewt & Hle).
    exists wt. rewrite (Hrec t Ht), Ewt. split; [reflexivity | exact Hle].
  - destruct Hatt as [->|(t & Ht & Et)]; [left; reflexivity|].
    right. exists t. split; [exact Ht|]. rewrite (Hrec t Ht), Et. reflexivity.
  - intros t v Hv. exact (lookup_weaken _ _ _ _ Hv Hsub).
  - intros t Ht Hnone. rewrite (Hrec t Ht). unfold used. rewrite Hnone. reflexivity.
Qed.

(** A cache that holds the width 100 for the line "a", measured with
    another font, while the host now measures the length of a text. *)
Lemma measureLabel_widest_line_witness :
  let text := LabelText.mk true (ContentArray ["a"; "bcd"]%string) (int 12)
                Undefined Undefined "center" in
  let measure := fun s : string => int (Z.of_nat (String.length s)) in
  let cache : gmap string num := {[ "a"%string := int 100 ]} in
  ((forall t, t ∈ ["a"; "bcd"]%string -> Num.is_finite (measure t) = true)
   /\ (forall t v, t ∈ ["a"; "bcd"]%string -> cache !! t = Some v ->
                   Num.is_finite v = true))
  /\ exists m, Size.w (measureLabel (fun _ => NaN) measure cache defaultLabel text).1
               = Fin (m + 2 * 6) /\ 0 <= m.
Proof.
  intros text measure cache.
  assert (H : (forall t, t ∈ ["a"; "bcd"]%string -> Num.is_finite (measure t) = true)
              /\ (forall t v, t ∈ ["a"; "bcd"]%string -> cache !! t = Some v ->
                              Num.is_finite v = true)).
  { split; [intros t _; reflexivity|]. intros t v _ Hk. subst cache.
    apply lookup_singleton_Some in Hk. destruct Hk as [_ <-]. reflexivity. }
  split; [exact H|].
  destruct (measureLabel_widest_line (fun _ => NaN) measure cache defaultLabel text
              ["a"; "bcd"]%string 6 eq_refl eq_refl (proj1 H) (proj2 H))
    as (m & E & Hm & _).
  exists m. split; [exact E | exact Hm].
Defined.

(** With that cache the label is 100 wide between its paddings, although
    the host measures no line wider than 3. *)
Example measureLabel_stale_entry :
  let text := LabelText.mk true (ContentArray ["a"; "bcd"]%string) (int 12)
                Undefined Undefined "center" in
  let measure := fun s : string => int (Z.of_nat (String.length s)) in
  let cache : gmap string num := {[ "a"%string := int 100 ]} in
  (Size.w (measureLabel (fun _ => NaN) measure cache defaultLabel text).1
   ~= int (100 + 2 * 6))%js
  /\ (Size.w (measureLabel (fun _ => NaN) measure ∅ defaultLabel text).1
      ~= int (3 + 2 * 6))%js.
Proof. vm_compute. split; reflexivity. Qed.

(** ** The size of an image *)

Lemma length_append_percent (pre : string) :
  String.length (pre ++ "%") = S (String.length pre).
Proof.
  induction pre as [|a pre IH]; [reflexivity|].
  simpl. f_equal. exact IH.
Qed.

Lemma endsWith_percent (pre : string) : endsWith (pre ++ "%") "%" = true.
Proof.
  unfold endsWith. rewrite length_append_percent. cbn [String.length].
  replace (S (String.length pre) - 1)%nat with (String.length pre) by lia.
  apply andb_true_iff. split; [reflexivity|].
  apply String.eqb_eq. induction pre as [|a pre IH]; [reflexivity|].
  simpl. exact IH.
Qed.

(** X22: an override of the size of an image that is a number replaces the
    natural size, a missing one keeps it, a text ending in "%" scales it by
    the number that [parseFloat] reads, divided by 100, and any other text
    gives 0 times the natural size: the size 0. *)
Theorem getImageSize_cases (parseFloat : string -> num) (size : Q) :
  (forall n, getImageSize parseFloat (Fin size) (Number n) = n)
  /\ getImageSize parseFloat (Fin size) Undefined = Fin size
  /\ (forall pre p, parseFloat (pre ++ "%")%string = Fin p ->
        (getImageSize parseFloat (Fin size) (Text (pre ++ "%"))
         ~= Fin (p / 100 * size))%js)
  /\ (forall s, endsWith s "%" = false ->
        (getImageSize parseFloat (Fin size) (Text s) ~= Fin 0)%js).
Proof.
  split; [reflexivity|]. split; [reflexivity|]. split.
  - intros pre p Hp. unfold getImageSize, toPercent.
    rewrite endsWith_percent, Hp. simpl. reflexivity.
  - intros s Hs. unfold getImageSize, toPercent. rewrite Hs. simpl. ring.
Qed.

Lemma getImageSize_cases_witness :
  (endsWith "50" "%" = false)
  /\ (getImageSize (fun _ => int 50) (Fin 300) (Text "50") ~= Fin 0)%js.
Proof.
  assert (H : endsWith "50" "%" = false) by reflexivity.
  split; [exact H|].
  exact (proj2 (proj2 (proj2 (getImageSize_cases (fun _ => int 50) 300))) "50"%string H).
Defined.

(** ** The ellipse example *)

(** The least of the values of a property, from the value [a] on. *)
Lemma fold_min_finite (prop : string) (data : list Point.t) (a : Q) :
  (forall p, p ∈ data -> Num.is_finite (Ellipse.pointProp p prop) = true) ->
  exists m,
    fold_left (fun v point => Num.min (Ellipse.pointProp point prop) v) data (Fin a)
    = Fin m
    /\ m <= a
    /\ (forall p, p ∈ data -> exists v, Ellipse.pointProp p prop = Fin v /\ m <= v)
    /\ (m = a \/ exists p, p ∈ data /\ Ellipse.pointProp p prop = Fin m).
Proof.
  revert a. induction data as [|p data IH]; intros a Hfin.
  - exists a. cbn [fold_left]. split; [reflexivity|]. split; [lra|].
    split; [|left; reflexivity]. intros p Hp. inversion Hp.
  - cbn [fold_left].
    destruct (finite_inv (Ellipse.pointProp p prop)) as [v Ev]; [apply Hfin; left|].
    rewrite Ev. cbn [Num.min Num.lt].
    assert (Hrest : forall p', p' ∈ data ->
                               Num.is_finite (Ellipse.pointProp p' prop) = true)
      by (intros p' Hp'; apply Hfin; right; exact Hp').
    qtest.
    + destruct (IH a Hrest) as (m & E & Hle & Hall & Hatt).
      exists m. split; [exact E|]. split; [lra|]. split.
      * intros p' Hp'. apply elem_of_cons in Hp'. destruct Hp' as [->|Hp'].
        -- exists v. split; [exact Ev | lra].
        -- apply Hall. exact Hp'.
      * destruct Hatt as [->|(p' & Hp' & Ep')]; [left; reflexivity|].
        right. exists p'. split; [right; exact Hp' | exact Ep'].
    + destruct (IH v Hrest) as (m & E & Hle & Hall & Hatt).
      exists m. split; [exact E|]. split; [lra|]. split.
      * intros p' Hp'. apply elem_of_cons in Hp'. destruct Hp' as [->|Hp'].
        -- exists v. split; [exact Ev | exact Hle].
        -- apply Hall. exact Hp'.
      * right. destruct Hatt as [->|(p' & Hp' & Ep')].
        -- exists p. split; [left | exact Ev].
        -- exists p'. split; [right; exact Hp' | exact Ep'].
Qed.

Lemma fold_max_finite (prop : string) (data : list Point.t) (a : Q) :
  (forall p, p ∈ data -> Num.is_finite (Ellipse.pointProp p prop) = true) ->
  exists m,
    fold_left (fun v point => Num.max (Ellipse.pointProp point prop) v) data (Fin a)
    = Fin m
    /\ a <= m
    /\ (forall p, p ∈ data -> exists v, Ellipse.pointProp p prop = Fin v /\ v <= m)
    /\ (m = a \/ exists p, p ∈ data /\ Ellipse.pointProp p prop = Fin m).
Proof.
  revert a. induction data as [|p data IH]; intros a Hfin.
  - exists a. cbn [fold_left]. split; [reflexivity|]. split; [lra|].
    split; [|left; reflexivity]. intros p Hp. inversion Hp.
  - cbn [fold_left].
    destruct (finite_inv (Ellipse.pointProp p prop)) as [v Ev]; [apply Hfin; left|].
    rewrite Ev. cbn [Num.max Num.lt].
    assert (Hrest : forall p', p' ∈ data ->
                               Num.is_finite (Ellipse.pointProp p' prop) = true)
      by (intros p' Hp'; apply Hfin; right; exact Hp').
    qtest.
    + destruct (IH a Hrest) as (m & E & Hle & Hall & Hatt).
      exists m. split; [exact E|]. split; [lra|]. split.
      * intros p' Hp'. apply elem_of_cons in Hp'. destruct Hp' as [->|Hp'].
        -- exists v. split; [exact Ev | lra].
        -- apply Hall. exact Hp'.
      * destruct Hatt as [->|(p' & Hp' & Ep')]; [left; reflexivity|].
        right. exists p'. split; [right; exact Hp' | exact Ep'].
    + destruct (IH v Hrest) as (m & E & Hle & Hall & Hatt).
      exists m. split; [exact E|]. split; [lra|]. split.
      * intros p' Hp'. apply elem_of_cons in Hp'. destruct Hp' as [->|Hp'].
        -- exists v. split; [exact Ev | exact Hle].
        -- apply Hall. exact Hp'.
      * right. destruct Hatt as [->|(p' & Hp' & Ep')].
        -- exists p. split; [left | exact Ev].
        -- exists p'. split; [right; exact Hp' | exact Ep'].
Qed.

(** The first round of the two folds, from the infinities. *)
Lemma fold_min_first (prop : string) (p : Point.t) (data : list Point.t) (v : Q) :
  Ellipse.pointProp p prop = Fin v ->
  fold_left (fun v point => Num.min (Ellipse.pointProp point prop) v) (p :: data) PInf
  = fold_left (fun v point => Num.min (Ellipse.pointProp point prop) v) data (Fin v).
Proof. intros E. cbn [fold_left]. rewrite E. reflexivity. Qed.

Lemma fold_max_first (prop : string) (p : Point.t) (data : list Point.t) (v : Q) :
  Ellipse.pointProp p prop = Fin v ->
  fold_left (fun v point => Num.max (Ellipse.pointProp point prop) v) (p :: data) NInf
  = fold_left (fun v point => Num.max (Ellipse.pointProp point prop) v) data (Fin v).
Proof. intros E. cbn [fold_left]. rewrite E. reflexivity. Qed.

(** On data that is not empty and has finite values, [min] is the least
    value of the property and [max] the greatest one. *)
Lemma min_max_finite (datasets : list (list Point.t)) (i : nat) (prop : string)
    (data : list Point.t) :
  datasets !! i = Some data -> data <> [] ->
  (forall p, p ∈ data -> Num.is_finite (Ellipse.pointProp p prop) = true) ->
  exists lo hi,
    Ellipse.min datasets i prop = Some (Fin lo)
    /\ Ellipse.max datasets i prop = Some (Fin hi)
    /\ (forall p, p ∈ data ->
          exists v, Ellipse.pointProp p prop = Fin v /\ lo <= v <= hi)
    /\ (exists p, p ∈ data /\ Ellipse.pointProp p prop = Fin lo)
    /\ (exists p, p ∈ data /\ Ellipse.pointProp p prop = Fin hi).
Proof.
  intros Hi Hne Hfin. unfold Ellipse.min, Ellipse.max. rewrite Hi. cbn [mbind option_bind].
  destruct data as [|p data]; [congruence|].
  destruct (finite_inv (Ellipse.pointProp p prop)) as [v Ev]; [apply Hfin; left|].
  rewrite (fold_min_first prop p data v Ev), (fold_max_first prop p data v Ev).
  assert (Hrest : forall p', p' ∈ data ->
                             Num.is_finite (Ellipse.pointProp p' prop) = true)
    by (intros p' Hp'; apply Hfin; right; exact Hp').
  destruct (fold_min_finite prop data v Hrest) as (lo & El & Hl & Hlall & Hlatt).
  destruct (fold_max_finite prop data v Hrest) as (hi & Eh & Hh & Hhall & Hhatt).
  exists lo, hi. rewrite El, Eh. split; [reflexivity|]. split; [reflexivity|].
  split; [|split].
  - intros p' Hp'. apply elem_of_cons in Hp'. destruct Hp' as [->|Hp'].
    + exists v. split; [exact Ev | lra].
    + destruct (Hlall p' Hp') as (v1 & E1 & H1).
      destruct (Hhall p' Hp') as (v2 & E2 & H2).
      exists v1. split; [exact E1|]. rewrite E1 in E2. injection E2 as ->. lra.
  - destruct Hlatt as [->|(p' & Hp' & Ep')].
    + exists p. split; [left | exact Ev].
    + exists p'. split; [right; exact Hp' | exact Ep'].
  - destruct Hhatt as [->|(p' & Hp' & Ep')].
    + exists p. split; [left | exact Ev].
    + exists p'. split; [right; exact Hp' | exact Ep'].
Qed.

(** X23: for a data set that is not empty and has finite points, the
    bounds of the ellipse annotation enclose every point of the data set
    with a margin of 10 on each side, and the margin is exactly 10 at some
    point on each side. *)
Theorem annotation_encloses_data (datasets : list (list Point.t)) (i : nat)
    (data : list Point.t) :
  datasets !! i = Some data -> data <> [] ->
  (forall p, p ∈ data ->
     Num.is_finite (Point.x p) = true /\ Num.is_finite (Point.y p) = true) ->
  exists x0 y0 x1 y1,
    Ellipse.annotation datasets i
    = Some (Ellipse.mkBounds (Fin (x0 - 10)) (Fin (y0 - 10))
                             (Fin (x1 + 10)) (Fin (y1 + 10)))
    /\ (forall p, p ∈ data ->
          exists px py, p = Point.mk (Fin px) (Fin py)
                        /\ x0 <= px <= x1 /\ y0 <= py <= y1)
    /\ (exists p, p ∈ data /\ Point.x p = Fin x0)
    /\ (exists p, p ∈ data /\ Point.y p = Fin y0)
    /\ (exists p, p ∈ data /\ Point.x p = Fin x1)
    /\ (exists p, p ∈ data /\ Point.y p = Fin y1).
Proof.
  intros Hi Hne Hfin.
  destruct (min_max_finite datasets i "x" data Hi Hne)
    as (x0 & x1 & Ex0 & Ex1 & Hx & Hx0 & Hx1);
    [intros p Hp; apply (Hfin p Hp)|].
  destruct (min_max_finite datasets i "y" data Hi Hne)
    as (y0 & y1 & Ey0 & Ey1 & Hy & Hy0 & Hy1);
    [intros p Hp; apply (Hfin p Hp)|].
  exists x0, y0, x1, y1. unfold Ellipse.annotation.
  rewrite Ex0, Ey0, Ex1, Ey1. cbn [mbind option_bind].
  split; [reflexivity|]. split; [|repeat split; assumption].
  intros p Hp. destruct (Hx p Hp) as (px & Epx & Hpx).
  destruct (Hy p Hp) as (py & Epy & Hpy).
  exists px, py. split; [|split; assumption].
  destruct p as [a b]. cbn in Epx, Epy. subst. reflexivity.
Qed.

Lemma annotation_encloses_data_witness :
  let data := [Point.mk (int 3) (int 40); Point.mk (int 25) (int 7)] in
  ([data] !! 0%nat = Some data /\ data <> [])
  /\ exists x0 y0 x1 y1,
       Ellipse.annotation [data] 0
       = Some (Ellipse.mkBounds (Fin (x0 - 10)) (Fin (y0 - 10))
                                (Fin (x1 + 10)) (Fin (y1 + 10))).
Proof.
  intros data.
  assert (H : [data] !! 0%nat = Some data /\ data <> []) by (split; [reflexivity|discriminate]).
  split; [exact H|].
  destruct (annotation_encloses_data [data] 0 data (proj1 H) (proj2 H))
    as (x0 & y0 & x1 & y1 & E & _).
  { intros p Hp. apply elem_of_cons in Hp. destruct Hp as [->|Hp]; [split; reflexivity|].
    apply elem_of_cons in Hp. destruct Hp as [->|Hp]; [split; reflexivity|].
    inversion Hp. }
  exists x0, y0, x1, y1. exact E.
Defined.

Lemma min_nan_r (a : num) : Num.min a NaN = NaN.
Proof. destruct a; reflexivity. Qed.

Lemma max_nan_r (a : num) : Num.max a NaN = NaN.
Proof. destruct a; reflexivity. Qed.

(** A NaN value makes the two folds NaN. *)
Lemma fold_nan (prop : string) (data : list Point.t) (p : Point.t) (acc : num) :
  p ∈ data -> Ellipse.pointProp p prop = NaN ->
  fold_left (fun v point => Num.min (Ellipse.pointProp point prop) v) data acc = NaN
  /\ fold_left (fun v point => Num.max (Ellipse.pointProp point prop) v) data acc = NaN.
Proof.
  assert (Hmin : forall l, fold_left (fun v point => Num.min (Ellipse.pointProp point prop) v)
                             l NaN = NaN).
  { induction l as [|q l IH]; [reflexivity|]. cbn [fold_left].
    rewrite min_nan_r. exact IH. }
  assert (Hmax : forall l, fold_left (fun v point => Num.max (Ellipse.pointProp point prop) v)
                             l NaN = NaN).
  { induction l as [|q l IH]; [reflexivity|]. cbn [fold_left].
    rewrite max_nan_r. exact IH. }
  revert acc. induction data as [|q data IH]; intros acc Hp Ep.
  - inversion Hp.
  - cbn [fold_left]. apply elem_of_cons in Hp. destruct Hp as [->|Hp].
    + rewrite Ep. cbn [Num.min Num.max]. split; [apply Hmin | apply Hmax].
    + split; apply IH; assumption.
Qed.

(** X24: the bounds of an empty data set are the inverted infinite box,
    from plus infinity down to minus infinity on both axes; a data set that
    the chart does not have gives no bounds, and a point with a NaN
    coordinate makes both bounds of that axis NaN. *)
Theorem annotation_edge_cases (datasets : list (list Point.t)) (i : nat) :
  (datasets !! i = Some [] ->
   Ellipse.annotation datasets i = Some (Ellipse.mkBounds PInf PInf NInf NInf))
  /\ (datasets !! i = None -> Ellipse.annotation datasets i = None)
  /\ (forall data p, datasets !! i = Some data -> p ∈ data -> Point.x p = NaN ->
        exists b, Ellipse.annotation datasets i = Some b
                  /\ Ellipse.xMin b = NaN /\ Ellipse.xMax b = NaN).
Proof.
  split; [|split].
  - intros Hi. unfold Ellipse.annotation, Ellipse.min, Ellipse.max.
    rewrite Hi. reflexivity.
  - intros Hi. unfold Ellipse.annotation, Ellipse.min. rewrite Hi. reflexivity.
  - intros data p Hi Hp Ex. unfold Ellipse.annotation, Ellipse.min, Ellipse.max.
    rewrite Hi. cbn [mbind option_bind].
    destruct (fold_nan "x" data p PInf Hp Ex) as [E1 _].
    destruct (fold_nan "x" data p NInf Hp Ex) as [_ E2].
    rewrite E1, E2. eexists. split; [reflexivity|]. split; reflexivity.
Qed.

Lemma annotation_edge_cases_witness :
  [[] ; [Point.mk NaN (int 1)]] !! 0%nat = Some ([] : list Point.t)
  /\ Ellipse.annotation [[] ; [Point.mk NaN (int 1)]] 0
     = Some (Ellipse.mkBounds PInf PInf NInf NInf).
Proof.
  assert (H : [[] ; [Point.mk NaN (int 1)]] !! 0%nat = Some ([] : list Point.t))
    by reflexivity.
  split; [exact H|].
  exact (proj1 (annotation_edge_cases [[] ; [Point.mk NaN (int 1)]] 0) H).
Defined.

(** ** The clipper, again *)

Lemma Qabs_scaled (k d : Q) : 0 <= k -> k <= 1 -> Qabs (k * d) <= Qabs d.
Proof.
  intros H0 H1. rewrite Qabs_Qmult, (Qabs_pos k H0).
  pose proof (Qabs_nonneg d). nra.
Qed.

(** X25: clipping never lengthens the line: when some point of the
    segment lies in the viewport, the width and the height of the clipped
    line are at most the width and the height of the line itself. *)
Theorem limitLineToArea_shrinks (a1 b1 a2 b2 s L R T B : Q) :
  let p1 := Point.mk (Fin a1) (Fin b1) in
  let p2 := Point.mk (Fin a2) (Fin b2) in
  let area := mkArea (Fin T) (Fin R) (Fin B) (Fin L) in
  0 <= s <= 1 ->
  inArea (pointInLine p1 p2 (Fin s)) area = true ->
  exists wd ht,
    Props.width (limitLineToArea p1 p2 area) = Fin wd
    /\ Props.height (limitLineToArea p1 p2 area) = Fin ht
    /\ 0 <= wd <= Qabs (a2 - a1) /\ 0 <= ht <= Qabs (b2 - b1).
Proof.
  intros p1 p2 area [Hs0 Hs1] Hin.
  unfold pointInLine in Hin; simpl in Hin.
  apply inArea_fin in Hin. destruct Hin as [HX HY].
  destruct (limitPointToArea_on_segment a1 b1 a2 b2 s L R T B Hs0 Hs1 HX HY)
    as (t1 & xa & ya & E1 & Ht1 & Ht1s & Hxa & Hya).
  destruct (limitPointToArea_on_segment a2 b2 a1 b1 (1 - s) L R T B)
    as (t2 & xb & yb & E2 & Ht2 & Ht2s & Hxb & Hyb); try lra.
  subst p1 p2 area. unfold limitLineToArea. cbv zeta.
  cbn [Props.width Props.height]. rewrite E1, E2.
  cbn [Point.x Point.y Num.sub Num.add Num.neg Num.abs].
  eexists. eexists. split; [reflexivity|]. split; [reflexivity|].
  assert (Ex : xb + - xa == (1 - t2 - t1) * (a2 - a1)) by (rewrite Hxa, Hxb; ring).
  assert (Ey : yb + - ya == (1 - t2 - t1) * (b2 - b1)) by (rewrite Hya, Hyb; ring).
  rewrite Ex, Ey. split; (split; [apply Qabs_nonneg | apply Qabs_scaled; lra]).
Qed.

Lemma limitLineToArea_shrinks_witness :
  let p1 := Point.mk (int (-10)) (int 50) in
  let p2 := Point.mk (int 110) (int 50) in
  let area := mkArea (int 0) (int 100) (int 100) (int 0) in
  0 <= 1 # 2 <= 1 /\
  exists wd ht,
    Props.width (limitLineToArea p1 p2 area) = Fin wd
    /\ Props.height (limitLineToArea p1 p2 area) = Fin ht
    /\ 0 <= wd <= Qabs (110 - -10) /\ 0 <= ht <= Qabs (50 - 50).
Proof.
  intros p1 p2 area.
  assert (H : 0 <= 1 # 2 <= 1) by (split; discriminate).
  split; [exact H|].
  apply (limitLineToArea_shrinks (-10) 50 110 50 (1 # 2) 0 100 0 100 H).
  vm_compute. reflexivity.
Defined.

(** ** Reversing the line under the label *)

(** The arithmetic respects the equality of numbers up to the
    representation of a rational. *)
Lemma eqv_sym (a b : num) : (a ~= b -> b ~= a)%js.
Proof. destruct a, b; simpl; trivial. intros H. symmetry. exact H. Qed.

Lemma sub_eqv (a a' b b' : num) : (a ~= a' -> b ~= b' -> a - b ~= a' - b')%js.
Proof.
  destruct a, a', b, b'; simpl; trivial; try contradiction.
  intros H1 H2. rewrite H1, H2. reflexivity.
Qed.

Lemma lt_eqv (a a' b b' : num) :
  (a ~= a')%js -> (b ~= b')%js -> Num.lt a b = Num.lt a' b'.
Proof.
  destruct a, a', b, b'; simpl; trivial; try contradiction.
  intros H1 H2. rewrite (Qltb_proper _ _ _ H1).
  destruct (Num.Qltb q0 q2) eqn:E.
  - apply Qltb_lt. apply Qltb_lt in E. lra.
  - apply Qltb_ge. apply Qltb_ge in E. lra.
Qed.

Lemma div_eqv_l (a a' b : num) : (a ~= a' -> a / b ~= a' / b)%js.
Proof.
  destruct a, a', b; simpl; trivial; try contradiction.
  - intros H. qtest.
    + assert (E : (q ?= 0) = (q0 ?= 0)) by (rewrite H; reflexivity).
      rewrite E. apply eqv_refl.
    + simpl. rewrite H. reflexivity.
  - intros _. reflexivity.
  - intros _. reflexivity.
  - intros _. apply eqv_refl.
  - intros _. apply eqv_refl.
Qed.

Lemma max_eqv (a a' b b' : num) :
  (a ~= a')%js -> (b ~= b')%js -> (Num.max a b ~= Num.max a' b')%js.
Proof.
  intros H1 H2. pose proof (lt_eqv a a' b b' H1 H2) as E.
  destruct a, a', b, b'; cbn [Num.max Num.min Num.lt Num.eqv] in *;
    trivial; try contradiction; try assumption;
    rewrite E; clear E; destruct (Num.Qltb _ _); assumption.
Qed.

Lemma min_eqv (a a' b b' : num) :
  (a ~= a')%js -> (b ~= b')%js -> (Num.min a b ~= Num.min a' b')%js.
Proof.
  intros H1 H2. pose proof (lt_eqv b b' a a' H2 H1) as E.
  destruct a, a', b, b'; cbn [Num.max Num.min Num.lt Num.eqv] in *;
    trivial; try contradiction; try assumption;
    rewrite E; clear E; destruct (Num.Qltb _ _); assumption.
Qed.

Lemma min_comm (a b : num) : (Num.min a b ~= Num.min b a)%js.
Proof.
  destruct a, b; simpl; trivial; try reflexivity; repeat qtest; simpl; lra.
Qed.

Lemma max_comm (a b : num) : (Num.max a b ~= Num.max b a)%js.
Proof.
  destruct a, b; simpl; trivial; try reflexivity; repeat qtest; simpl; lra.
Qed.

(** The space around a line does not depend on its direction. *)
Lemma spaceAround_reversed (l : Coords) (area : Area) :
  let l' := mkCoords (x2 l) (y2 l) (x l) (y l) in
  (Space.x (spaceAround l' area) ~= Space.x (spaceAround l area))%js
  /\ (Space.y (spaceAround l' area) ~= Space.y (spaceAround l area))%js
  /\ Space.dx (spaceAround l' area) = Space.dx (spaceAround l area)
  /\ Space.dy (spaceAround l' area) = Space.dy (spaceAround l area).
Proof.
  intros l'. subst l'. unfold spaceAround. cbv zeta.
  cbn [Space.x Space.y Space.dx Space.dy x y x2 y2].
  assert (Hl : (Num.min (x2 l) (x l) - left area ~= Num.min (x l) (x2 l) - left area)%js)
    by (apply sub_eqv; [apply min_comm | apply eqv_refl]).
  assert (Hr : (right area - Num.max (x2 l) (x l) ~= right area - Num.max (x l) (x2 l))%js)
    by (apply sub_eqv; [apply eqv_refl | apply max_comm]).
  assert (Ht : (Num.min (y2 l) (y l) - top area ~= Num.min (y l) (y2 l) - top area)%js)
    by (apply sub_eqv; [apply min_comm | apply eqv_refl]).
  assert (Hb : (bottom area - Num.max (y2 l) (y l) ~= bottom area - Num.max (y l) (y2 l))%js)
    by (apply sub_eqv; [apply eqv_refl | apply max_comm]).
  split; [apply min_eqv; assumption|]. split; [apply min_eqv; assumption|].
  split.
  - rewrite (lt_eqv _ _ _ _ Hl Hr). reflexivity.
  - rewrite (lt_eqv _ _ _ _ Ht Hb). reflexivity.
Qed.

Lemma calculateTAdjust_space_eqv (lineSize labelSize : Size.t) (label : Label)
    (sp sp' : Space.t) :
  (Space.x sp ~= Space.x sp')%js -> (Space.y sp ~= Space.y sp')%js ->
  Space.dx sp = Space.dx sp' -> Space.dy sp = Space.dy sp' ->
  (calculateTAdjust lineSize labelSize label sp
   ~= calculateTAdjust lineSize labelSize label sp')%js.
Proof.
  intros Hx Hy Hdx Hdy. unfold calculateTAdjust, clamp. cbv zeta.
  rewrite Hdx, Hdy.
  apply min_eqv; [apply eqv_refl|]. apply max_eqv; [apply eqv_refl|].
  apply max_eqv.
  - unfold andNum. destruct (_ >? int 0)%js; [|apply eqv_refl].
    cbn [toNumber]. apply div_eqv_l, sub_eqv; [apply eqv_refl | exact Hx].
  - unfold andNum. destruct (_ >? int 0)%js; [|apply eqv_refl].
    cbn [toNumber]. apply div_eqv_l, sub_eqv; [apply eqv_refl | exact Hy].
Qed.

(** X27: the position "end" on a line is the position "start" on the
    reversed line: for all numbers, the placement parameter for "end" is 1
    minus the placement parameter for "start" on the line with its two end
    points exchanged, and the other way round. *)
Theorem calculateT_reversed (line : LineAnnotation) (rotSize : Size.t) (area : Area) :
  let c := coords line in
  let reversed := mkLine (mkCoords (x2 c) (y2 c) (x c) (y c)) (options line) in
  (calculateT line "end" rotSize area
   ~= int 1 - calculateT reversed "start" rotSize area)%js
  /\ (calculateT reversed "end" rotSize area
      ~= int 1 - calculateT line "start" rotSize area)%js.
Proof.
  intros c reversed.
  destruct (spaceAround_reversed c area) as (Ex & Ey & Edx & Edy).
  unfold calculateT. cbv zeta. cbn [String.eqb Ascii.eqb Bool.eqb].
  subst reversed. cbn [coords options x y x2 y2]. fold c.
  split; (apply sub_eqv; [apply eqv_refl|]).
  - apply eqv_sym. apply calculateTAdjust_space_eqv; assumption.
  - apply calculateTAdjust_space_eqv; assumption.
Qed.
